(** * lambda_handler.py: the blog generation handler

    A shallow embedding of [src/lambda/lambda_handler.py] and the proofs of
    the properties its specification states about it.

    Python [str] values are sequences of Unicode code points, and [len]
    counts code points, so a string is a list of code points here.  The
    external collaborators (the [json] decoder, the Bedrock runtime client,
    the S3 client and the clock) are interfaces; everything the module
    itself computes is a function below. *)

From Stdlib Require Import NArith ZArith String Ascii DecimalString PrimFloat.
From stdpp Require Import base list gmap.

Set Warnings "-register-all,-inexact-float".

Local Open Scope N_scope.
Local Open Scope list_scope.

(** ** Strings *)

Definition char := N.
Definition str := list char.

(** A literal of the source (all of them are ASCII) as a [str]. *)
Definition lit (s : string) : str :=
  List.map N_of_ascii (list_ascii_of_string s).

Definition NL : char := 10.
Definition DQUOTE : char := 34.

(** [str.isspace] for one code point, as CPython's
    [_PyUnicode_IsWhitespace] decides it. *)
Definition is_space (c : char) : bool :=
  ((9 <=? c) && (c <=? 13)) || ((28 <=? c) && (c <=? 32))
  || (c =? 133) || (c =? 160) || (c =? 5760)
  || ((8192 <=? c) && (c <=? 8202))
  || (c =? 8232) || (c =? 8233) || (c =? 8239) || (c =? 8287) || (c =? 12288).

Fixpoint lstrip (s : str) : str :=
  match s with
  | c :: r => if is_space c then lstrip r else s
  | [] => []
  end.

Definition rstrip (s : str) : str := rev (lstrip (rev s)).

(** [s.strip()] *)
Definition strip (s : str) : str := rstrip (lstrip s).

(** [p] is a prefix of [s], decided. *)
Fixpoint starts_with (p s : str) : bool :=
  match p, s with
  | [], _ => true
  | a :: p', b :: s' => (a =? b) && starts_with p' s'
  | _ :: _, [] => false
  end.

(** [p in s] *)
Fixpoint contains (p s : str) : bool :=
  starts_with p s ||
  match s with
  | [] => false
  | _ :: r => contains p r
  end.

(** The number of positions of [s] at which [p] occurs. *)
Fixpoint occurrences (p s : str) : nat :=
  ((if starts_with p s then 1 else 0) +
   match s with
   | [] => 0
   | _ :: r => occurrences p r
   end)%nat.

(** ** [re.sub] for the three patterns of the module

    None of the patterns has an anchor or a look-behind, so whether one
    matches at a position depends on the text from that position on only:
    a pattern is given by the length of its match at the head of a text.
    [re.sub] scans from the left; where the pattern matches it writes the
    replacement and resumes after the match, elsewhere it copies one
    character.  No pattern here matches the empty string.  [skip] counts
    the characters of the current match still to be dropped. *)

Section ReSub.
Variable match_at : str -> option nat.
Variable repl : str.

Fixpoint re_sub_from (skip : nat) (s : str) : str :=
  match s with
  | [] => []
  | c :: r =>
      match skip with
      | S k => re_sub_from k r
      | O =>
          match match_at s with
          | Some (S k) => repl ++ re_sub_from k r
          | _ => c :: re_sub_from O r
          end
      end
  end.

Definition re_sub (s : str) : str := re_sub_from O s.
End ReSub.

(** [</?s>] *)
Definition match_s_tag (s : str) : option nat :=
  if starts_with (lit "</s>") s then Some 4%nat
  else if starts_with (lit "<s>") s then Some 3%nat
  else None.

(** [\[/?INST\]] *)
Definition match_inst_tag (s : str) : option nat :=
  if starts_with (lit "[/INST]") s then Some 7%nat
  else if starts_with (lit "[INST]") s then Some 6%nat
  else None.

(** The number of newlines [s] starts with. *)
Fixpoint leading_newlines (s : str) : nat :=
  match s with
  | c :: r => if c =? NL then S (leading_newlines r) else O
  | [] => O
  end.

(** [\n{3,}]: greedy, so the whole run. *)
Definition match_newlines3 (s : str) : option nat :=
  let n := leading_newlines s in
  if (3 <=? n)%nat then Some n else None.

Definition collapse_newlines (s : str) : str :=
  re_sub match_newlines3 [NL; NL] s.

(** ** Helper functions of the module *)

Definition prompt_template_head : str :=
  [NL] ++ lit "<s>[INST]" ++ [NL]
  ++ lit "You are a professional blog writer." ++ [NL]
  ++ [NL]
  ++ lit "Write a clear, concise, and well-structured 200-word blog post on the topic: "
  ++ [DQUOTE].

Definition prompt_template_tail : str :=
  [DQUOTE] ++ lit "." ++ [NL]
  ++ lit "Format it using:" ++ [NL]
  ++ lit "- A title in heading style" ++ [NL]
  ++ lit "- Subheadings for sections" ++ [NL]
  ++ lit "- Bullet points where applicable" ++ [NL]
  ++ lit "Avoid repeating the prompt or adding instructional tokens. End the blog naturally." ++ [NL]
  ++ lit "[/INST]" ++ [NL].

Definition build_prompt (topic : str) : str :=
  strip (prompt_template_head ++ topic ++ prompt_template_tail).

Definition clean_llama_output (raw_text : str) : str :=
  let cleaned := re_sub match_s_tag [] raw_text in
  let cleaned := re_sub match_inst_tag [] cleaned in
  let cleaned := strip cleaned in
  let cleaned := collapse_newlines cleaned in
  cleaned.

(** The first two steps of [clean_llama_output]. *)
Definition remove_tokens (s : str) : str :=
  re_sub match_inst_tag [] (re_sub match_s_tag [] s).

(** The prompt without the newline that [strip] takes from each end of the
    template. *)
Definition prompt_head : str := lstrip prompt_template_head.
Definition prompt_tail : str := rstrip prompt_template_tail.

(** The text does not begin with whitespace. *)
Definition head_ok (s : str) : bool :=
  match s with
  | c :: _ => negb (is_space c)
  | [] => true
  end.

(** One of the delimiter tokens of the generation protocol occurs in the
    text. *)
Definition has_delimiter (s : str) : bool :=
  contains (lit "<s>") s || contains (lit "</s>") s
  || contains (lit "[INST]") s || contains (lit "[/INST]") s.

(** The text has no run of three newlines or more: at no position does
    it go on with three newlines. *)
Definition no_long_run (s : str) : Prop :=
  forall i : nat, (leading_newlines (drop i s) < 3)%nat.

(** ** Python values

    What [json.loads] can return: [None], [bool], [int], [float] (an IEEE
    double), [str], [list] and [dict] with string keys, in insertion
    order. *)

Inductive pyval : Type :=
| PNone
| PBool (b : bool)
| PInt (z : Z)
| PFloat (f : float)
| PStr (s : str)
| PList (l : list pyval)
| PDict (d : list (str * pyval)).

Fixpoint str_eqb (a b : str) : bool :=
  match a, b with
  | [], [] => true
  | x :: a', y :: b' => (x =? y) && str_eqb a' b'
  | _, _ => false
  end.

Fixpoint dict_lookup (k : str) (d : list (str * pyval)) : option pyval :=
  match d with
  | [] => None
  | (k', v) :: r => if str_eqb k k' then Some v else dict_lookup k r
  end.

(** [bool(v)], the test that [not v] and [if v] apply. *)
Definition truthy (v : pyval) : bool :=
  match v with
  | PNone => false
  | PBool b => b
  | PInt z => negb (z =? 0)%Z
  | PFloat f => negb (PrimFloat.eqb f 0%float)
  | PStr s => match s with [] => false | _ => true end
  | PList l => match l with [] => false | _ => true end
  | PDict d => match d with [] => false | _ => true end
  end.

(** ** Exceptions and outcomes *)

Inductive exn : Type :=
| TypeError
| AttributeError
| UnicodeEncodeError
| JSONDecodeError
| ServiceError (name : str).

Inductive result (A : Type) : Type :=
| Ok (a : A)
| Raise (e : exn).
Arguments Ok {A} a.
Arguments Raise {A} e.

(** [v.get(k, default)]: only a [dict] has the method. *)
Definition py_get (v : pyval) (k : str) (default : pyval) : result pyval :=
  match v with
  | PDict d => Ok (match dict_lookup k d with Some x => x | None => default end)
  | _ => Raise AttributeError
  end.

(** ** The Python runtime the module relies on *)

Class PyRuntime : Type := {
  (** [json.loads] on a text: the decoded value, or [JSONDecodeError] *)
  json_loads : str -> result pyval;
  (** [str(v)] for a value that is not a [str] *)
  py_repr : pyval -> str;
  (** [float.__repr__] of a finite float *)
  float_repr : float -> str
}.

(** ** [json.dumps] with its default arguments *)

Definition hex_digit (n : N) : char :=
  if n <? 10 then 48 + n else 87 + n.

(** ['{0:04x}'.format(n)] for [n < 0x10000] *)
Definition hex4 (n : N) : str :=
  [hex_digit (N.land (N.shiftr n 12) 15); hex_digit (N.land (N.shiftr n 8) 15);
   hex_digit (N.land (N.shiftr n 4) 15); hex_digit (N.land n 15)].

Definition BACKSLASH : char := 92.

Definition json_escape_char (c : char) : str :=
  if c =? DQUOTE then [BACKSLASH; DQUOTE]
  else if c =? BACKSLASH then [BACKSLASH; BACKSLASH]
  else if c =? 8 then BACKSLASH :: lit "b"
  else if c =? 12 then BACKSLASH :: lit "f"
  else if c =? NL then BACKSLASH :: lit "n"
  else if c =? 13 then BACKSLASH :: lit "r"
  else if c =? 9 then BACKSLASH :: lit "t"
  else if (32 <=? c) && (c <=? 126) then [c]
  else if c <? 65536 then BACKSLASH :: lit "u" ++ hex4 c
  else
    let n := c - 65536 in
    let s1 := N.lor 55296 (N.land (N.shiftr n 10) 1023) in
    let s2 := N.lor 56320 (N.land n 1023) in
    BACKSLASH :: lit "u" ++ hex4 s1 ++ BACKSLASH :: lit "u" ++ hex4 s2.

Definition json_string (s : str) : str :=
  [DQUOTE] ++ concat (List.map json_escape_char s) ++ [DQUOTE].

Definition decimal (z : Z) : str :=
  lit (DecimalString.NilZero.string_of_int (Z.to_int z)).

Section JsonDumps.
Context `{PyRuntime}.

Definition json_float (f : float) : str :=
  if PrimFloat.is_nan f then lit "NaN"
  else if PrimFloat.eqb f PrimFloat.infinity then lit "Infinity"
  else if PrimFloat.eqb f PrimFloat.neg_infinity then lit "-Infinity"
  else float_repr f.

Fixpoint json_dumps (v : pyval) : str :=
  match v with
  | PNone => lit "null"
  | PBool true => lit "true"
  | PBool false => lit "false"
  | PInt z => decimal z
  | PFloat f => json_float f
  | PStr s => json_string s
  | PList l =>
      lit "[" ++
      (fix items (l : list pyval) : str :=
         match l with
         | [] => []
         | x :: r =>
             match r with
             | [] => json_dumps x
             | _ :: _ => json_dumps x ++ lit ", " ++ items r
             end
         end) l ++ lit "]"
  | PDict d =>
      lit "{" ++
      (fix items (d : list (str * pyval)) : str :=
         match d with
         | [] => []
         | (k, x) :: r =>
             match r with
             | [] => json_string k ++ lit ": " ++ json_dumps x
             | _ :: _ => json_string k ++ lit ": " ++ json_dumps x ++ lit ", " ++ items r
             end
         end) d ++ lit "}"
  end.
End JsonDumps.

(** ** [str.encode("utf-8")]

    A byte is an [N] below 256.  A surrogate code point cannot be encoded
    ([json.loads] produces one from an unpaired [\ud800] escape). *)

Definition bytes := list N.

Definition utf8_char (c : char) : result bytes :=
  if c <? 128 then Ok [c]
  else if c <? 2048 then
    Ok [N.lor 192 (N.shiftr c 6); N.lor 128 (N.land c 63)]
  else if c <? 65536 then
    if (55296 <=? c) && (c <=? 57343) then Raise UnicodeEncodeError
    else Ok [N.lor 224 (N.shiftr c 12); N.lor 128 (N.land (N.shiftr c 6) 63);
             N.lor 128 (N.land c 63)]
  else if c <? 1114112 then
    Ok [N.lor 240 (N.shiftr c 18); N.lor 128 (N.land (N.shiftr c 12) 63);
        N.lor 128 (N.land (N.shiftr c 6) 63); N.lor 128 (N.land c 63)]
  else Raise UnicodeEncodeError.

Fixpoint encode_utf8 (s : str) : result bytes :=
  match s with
  | [] => Ok []
  | c :: r =>
      match utf8_char c with
      | Raise e => Raise e
      | Ok b =>
          match encode_utf8 r with
          | Raise e => Raise e
          | Ok bs => Ok (b ++ bs)
          end
      end
  end.

(** ** [datetime.now().strftime("%Y_%m_%d_%H%M%S")]

    The year of the clock has four digits. *)

Record datetime : Type := {
  year : N; month : N; day : N; hour : N; minute : N; second : N
}.

Definition zero_pad (width : nat) (n : N) : str :=
  let digits := lit (DecimalString.NilZero.string_of_uint (N.to_uint n)) in
  repeat 48 (width - length digits)%nat ++ digits.

Definition strftime (t : datetime) : str :=
  zero_pad 4 (year t) ++ lit "_" ++ zero_pad 2 (month t) ++ lit "_"
  ++ zero_pad 2 (day t) ++ lit "_"
  ++ zero_pad 2 (hour t) ++ zero_pad 2 (minute t) ++ zero_pad 2 (second t).

(** ** External services and their effects

    The Bedrock runtime client, the S3 client and the clock are outside the
    module.  A [Services] gives the outcome of each call; the handler's own
    effect on the world is the log of the calls it made and the objects its
    successful writes left in the bucket.  The [logger] calls are not part
    of the model. *)

Inductive call : Type :=
| InvokeModel (modelId contentType accept body : str)
| PutObject (bucket key : str) (body : bytes).

Class Services : Type := {
  (** [bedrock_runtime.invoke_model(...)] followed by
      [response["body"].read()]: the text of the response body *)
  invoke_model : str -> str -> str -> str -> result str;
  (** [s3.put_object(Bucket, Key, Body)] *)
  put_object : str -> str -> bytes -> result unit;
  (** [datetime.now()] *)
  datetime_now : datetime
}.

(** The bucket contents, by bucket name and key, and the calls made so
    far. *)
Record cloud : Type := {
  objects : gmap (list N * list N) (list N);
  calls : list call
}.

Definition M (A : Type) : Type := cloud -> result A * cloud.

Definition ret {A} (a : A) : M A := fun st => (Ok a, st).

Definition raise {A} (e : exn) : M A := fun st => (Raise e, st).

Definition lift {A} (r : result A) : M A := fun st => (r, st).

Definition bind {A B} (m : M A) (k : A -> M B) : M B :=
  fun st =>
    match m st with
    | (Ok a, st') => k a st'
    | (Raise e, st') => (Raise e, st')
    end.

(** [try: m  except Exception as e: h e] *)
Definition try_except {A} (m : M A) (h : exn -> M A) : M A :=
  fun st =>
    match m st with
    | (Ok a, st') => (Ok a, st')
    | (Raise e, st') => h e st'
    end.

Notation "x <- m ;; k" := (bind m (fun x => k))
  (at level 20, m at level 99, k at level 200, only parsing).

(** ** Constants *)

Definition S3_BUCKET : str := lit "aws-bedrock-stuffs".
Definition S3_PREFIX : str := lit "blog_output".
Definition MODEL_ID : str := lit "meta.llama3-8b-instruct-v1:0".
Definition MAX_GEN_TOKENS : Z := 384.

(** ** The response envelopes *)

Record response : Type := {
  statusCode : Z;
  headers : list (str * str);
  body : str
}.

Definition allow_origin : str * str :=
  (lit "Access-Control-Allow-Origin", lit "*").
Definition allow_headers : str * str :=
  (lit "Access-Control-Allow-Headers", lit "Content-Type").

(** The text [{"error": "<message>"}]. *)
Definition error_text (message : str) : str :=
  lit "{" ++ [DQUOTE] ++ lit "error" ++ [DQUOTE] ++ lit ": "
  ++ [DQUOTE] ++ message ++ [DQUOTE] ++ lit "}".

Section Handler.
Context `{PyRuntime} `{Services}.

Definition bedrock_invoke_model (modelId contentType accept body : str) : M str :=
  fun st =>
    (invoke_model modelId contentType accept body,
     {| objects := objects st;
        calls := calls st ++ [InvokeModel modelId contentType accept body] |}).

Definition s3_put_object (bucket key : str) (content : bytes) : M unit :=
  fun st =>
    match put_object bucket key content with
    | Ok u =>
        (Ok u, {| objects := <[(bucket, key) := content]> (objects st);
                  calls := calls st ++ [PutObject bucket key content] |})
    | Raise e =>
        (Raise e, {| objects := objects st;
                     calls := calls st ++ [PutObject bucket key content] |})
    end.

(** [f"{v}"]: a [str] as it is, anything else through [str(v)]. *)
Definition format_value (v : pyval) : str :=
  match v with
  | PStr s => s
  | _ => py_repr v
  end.

(** [re.sub] raises [TypeError] on an argument that is not a string. *)
Definition expect_str (v : pyval) : result str :=
  match v with
  | PStr s => Ok s
  | _ => Raise TypeError
  end.

(** [json.loads(v)]: [TypeError] unless [v] is a text. *)
Definition json_loads_value (v : pyval) : result pyval :=
  match v with
  | PStr s => json_loads s
  | _ => Raise TypeError
  end.

Definition generation_payload (prompt : str) : pyval :=
  PDict [(lit "prompt", PStr prompt);
         (lit "temperature", PFloat 0.7%float);
         (lit "top_p", PFloat 0.9%float);
         (lit "max_gen_len", PInt MAX_GEN_TOKENS)].

(** The call that [generate_blog topic] makes. *)
Definition generation_call (topic : pyval) : call :=
  InvokeModel MODEL_ID (lit "application/json") (lit "application/json")
    (json_dumps (generation_payload (build_prompt (format_value topic)))).

(** The answer of the service to that call. *)
Definition generation_answer (topic : pyval) : result str :=
  invoke_model MODEL_ID (lit "application/json") (lit "application/json")
    (json_dumps (generation_payload (build_prompt (format_value topic)))).

Definition generate_blog (topic : pyval) : M str :=
  let prompt := build_prompt (format_value topic) in
  let payload := generation_payload prompt in
  try_except
    (response_body <-
       bedrock_invoke_model MODEL_ID (lit "application/json")
         (lit "application/json") (json_dumps payload) ;;
     response_json <- lift (json_loads response_body) ;;
     raw_blog <- lift (py_get response_json (lit "generation") (PStr [])) ;;
     raw_text <- lift (expect_str raw_blog) ;;
     ret (clean_llama_output raw_text))
    (fun e => ret []).

Definition s3_key_now : str :=
  S3_PREFIX ++ lit "/" ++ strftime datetime_now ++ lit ".txt".

(** The call that [save_to_s3] makes for an encoded content. *)
Definition store_call (encoded : bytes) : call :=
  PutObject S3_BUCKET s3_key_now encoded.

Definition save_to_s3 (content : str) : M str :=
  let s3_key := s3_key_now in
  try_except
    (encoded <- lift (encode_utf8 content) ;;
     written <- s3_put_object S3_BUCKET s3_key encoded ;;
     ret (lit "s3://" ++ S3_BUCKET ++ lit "/" ++ s3_key))
    (fun e => raise e).

Definition error_body (message : str) : str :=
  json_dumps (PDict [(lit "error", PStr message)]).

Definition missing_topic_response : response :=
  {| statusCode := 400;
     headers := [allow_origin];
     body := error_body (lit "Missing 'topic' in request body") |}.

Definition generation_failed_response : response :=
  {| statusCode := 500;
     headers := [allow_origin; allow_headers];
     body := error_body (lit "Blog generation failed or returned empty content.") |}.

Definition success_response (blog : str) : response :=
  {| statusCode := 200;
     headers := [allow_origin; allow_headers];
     body := blog |}.

Definition internal_error_response : response :=
  {| statusCode := 500;
     headers := [allow_origin; allow_headers];
     body := error_body (lit "Internal server error.") |}.

(** [event.get("body", "{}")] *)
Definition event_body (event : list (str * pyval)) : pyval :=
  match dict_lookup (lit "body") event with
  | Some v => v
  | None => PStr (lit "{}")
  end.

(** The [context] argument is not used by the source and is left out. *)
Definition lambda_handler (event : list (str * pyval)) : M response :=
  try_except
    (body <- lift (json_loads_value (event_body event)) ;;
     topic <- lift (py_get body (lit "topic") PNone) ;;
     if negb (truthy topic) then ret missing_topic_response
     else
       blog <- generate_blog topic ;;
       if negb (truthy (PStr blog)) || (length blog <? 100)%nat
       then ret generation_failed_response
       else
         s3_path <- save_to_s3 blog ;;
         ret (success_response blog))
    (fun e => ret internal_error_response).
End Handler.

(** ** A concrete runtime and concrete services, to run the handler

    [decode_flat_object] decodes the JSON texts that are one object whose
    members are strings without escape sequences, as [json.loads] does, and
    reports every other text as undecodable: it stands for [json.loads] on
    the documents of the examples only. *)

Module Demo.

Inductive scan : Type :=
| AtStart | AfterOpen
| InKey (k : str) | AfterKey (k : str) | AfterColon (k : str)
| InValue (k v : str) | AfterValue | AfterComma | AtEnd.

Definition json_space (c : char) : bool :=
  (c =? 32) || (c =? 9) || (c =? 10) || (c =? 13).

Definition plain_char (c : char) : bool :=
  (32 <=? c) && negb (c =? DQUOTE) && negb (c =? BACKSLASH).

(** A later member replaces an earlier one with the same key. *)
Fixpoint dict_set (k : str) (v : pyval) (d : list (str * pyval)) : list (str * pyval) :=
  match d with
  | [] => [(k, v)]
  | (k', v') :: r => if str_eqb k k' then (k, v) :: r else (k', v') :: dict_set k v r
  end.

Fixpoint decode_from (st : scan) (acc : list (str * pyval)) (s : str)
  : result pyval :=
  match s with
  | [] => match st with AtEnd => Ok (PDict acc) | _ => Raise JSONDecodeError end
  | c :: r =>
      match st with
      | AtStart =>
          if json_space c then decode_from AtStart acc r
          else if c =? 123 then decode_from AfterOpen acc r
          else Raise JSONDecodeError
      | AfterOpen =>
          if json_space c then decode_from AfterOpen acc r
          else if c =? 125 then decode_from AtEnd acc r
          else if c =? DQUOTE then decode_from (InKey []) acc r
          else Raise JSONDecodeError
      | InKey k =>
          if c =? DQUOTE then decode_from (AfterKey k) acc r
          else if plain_char c then decode_from (InKey (k ++ [c])) acc r
          else Raise JSONDecodeError
      | AfterKey k =>
          if json_space c then decode_from (AfterKey k) acc r
          else if c =? 58 then decode_from (AfterColon k) acc r
          else Raise JSONDecodeError
      | AfterColon k =>
          if json_space c then decode_from (AfterColon k) acc r
          else if c =? DQUOTE then decode_from (InValue k []) acc r
          else Raise JSONDecodeError
      | InValue k v =>
          if c =? DQUOTE then decode_from AfterValue (dict_set k (PStr v) acc) r
          else if plain_char c then decode_from (InValue k (v ++ [c])) acc r
          else Raise JSONDecodeError
      | AfterValue =>
          if json_space c then decode_from AfterValue acc r
          else if c =? 44 then decode_from AfterComma acc r
          else if c =? 125 then decode_from AtEnd acc r
          else Raise JSONDecodeError
      | AfterComma =>
          if json_space c then decode_from AfterComma acc r
          else if c =? DQUOTE then decode_from (InKey []) acc r
          else Raise JSONDecodeError
      | AtEnd =>
          if json_space c then decode_from AtEnd acc r
          else Raise JSONDecodeError
      end
  end.

Definition decode_flat_object (s : str) : result pyval :=
  decode_from AtStart [] s.

#[export] Instance runtime : PyRuntime := {|
  json_loads := decode_flat_object;
  py_repr := fun _ => lit "<object>";
  float_repr := fun f =>
    if PrimFloat.eqb f 0.7%float then lit "0.7"
    else if PrimFloat.eqb f 0.9%float then lit "0.9"
    else lit "0.0"
|}.

Definition noon : datetime :=
  {| year := 2024; month := 5; day := 17; hour := 12; minute := 0; second := 9 |}.

(** Services that answer every call the same way. *)
Definition services (generation : result str) (put : result unit) : Services := {|
  invoke_model := fun _ _ _ _ => generation;
  put_object := fun _ _ _ => put;
  datetime_now := noon
|}.

Definition empty_cloud : cloud := {| objects := ∅; calls := [] |}.

(** The request [{"topic": "<topic>"}] as API Gateway delivers it. *)
Definition request (topic : str) : list (str * pyval) :=
  [(lit "body", PStr (lit "{" ++ json_string (lit "topic") ++ lit ": "
                      ++ json_string topic ++ lit "}"))].

(** The response body [{"generation": "<text>"}] of the model. *)
Definition generation_body (text : str) : str :=
  lit "{" ++ json_string (lit "generation") ++ lit ": " ++ json_string text ++ lit "}".

Definition long_text : str :=
  lit "Cats sleep for most of the day, and yet they are alert hunters; this post looks at why they nap, how they play and what they eat.".

Definition short_text : str := lit "Too short.".

(** The model answers with [long_text] and the bucket accepts the write. *)
Definition all_up : Services :=
  services (Ok (generation_body long_text)) (Ok tt).

(** The model answers with [long_text] and the bucket cannot be reached. *)
Definition store_down : Services :=
  services (Ok (generation_body long_text))
    (Raise (ServiceError (lit "EndpointConnectionError"))).

(** The model answers with [short_text]. *)
Definition terse_model : Services :=
  services (Ok (generation_body short_text)) (Ok tt).

(** The model cannot be reached. *)
Definition model_down : Services :=
  services (Raise (ServiceError (lit "ReadTimeoutError"))) (Ok tt).

(** The model answers [{}]. *)
Definition silent_model : Services :=
  services (Ok (lit "{}")) (Ok tt).

Definition cats : pyval := PStr (lit "cats").
Definition blanks : str := [32; 32; 32].

End Demo.

(** ** Notions used to state further properties *)

(** A character that is not whitespace. *)
Definition visible (c : char) : bool := negb (is_space c).

(** A character that [json.dumps] copies as it is: printable ASCII other
    than the double quote and the backslash. *)
Definition plain (c : char) : bool :=
  (32 <=? c) && (c <=? 126) && negb (c =? DQUOTE) && negb (c =? BACKSLASH).

(** A printable ASCII character. *)
Definition printable (c : char) : bool := (32 <=? c) && (c <=? 126).

(** A code point that UTF-8 can encode: below [0x110000] and not a
    surrogate. *)
Definition encodable (c : char) : bool :=
  (c <? 55296) || ((57343 <? c) && (c <? 1114112)).

(** The fields of a [datetime] with a four-digit year. *)
Definition clock_in_range (t : datetime) : bool :=
  (1000 <=? year t) && (year t <=? 9999)
  && (1 <=? month t) && (month t <=? 12)
  && (1 <=? day t) && (day t <=? 31)
  && (hour t <=? 23) && (minute t <=? 59) && (second t <=? 59).

(** The number that a text of decimal digits writes. *)
Definition read_decimal (s : str) : N :=
  fold_left (fun acc c => 10 * acc + (c - 48)) s 0.

Definition digit (c : char) : bool := (48 <=? c) && (c <=? 57).

(** The key under which [save_to_s3] writes when the clock reads [t]. *)
Definition s3_key_at (t : datetime) : str :=
  S3_PREFIX ++ lit "/" ++ strftime t ++ lit ".txt".

(** [zero_pad width n] is [width] decimal digits that write [n]. *)
Definition padded_ok (width : nat) (n : N) : bool :=
  (length (zero_pad width n) =? width)%nat
  && (read_decimal (zero_pad width n) =? n)
  && forallb digit (zero_pad width n).

(** [f] holds of the [n] numbers from [i] on. *)
Fixpoint all_from (n : nat) (i : N) (f : N -> bool) : bool :=
  match n with
  | O => true
  | S k => f i && all_from k (N.succ i) f
  end.

(** The value of the topic field of a decoded request, as
    [body.get("topic")] gives it. *)
Definition topic_of (d : list (str * pyval)) : pyval :=
  match dict_lookup (lit "topic") d with
  | Some v => v
  | None => PNone
  end.

(** A runtime whose [json.loads] knows the documents of a table, for
    requests and answers with values other than strings; it reports every
    other text as undecodable.  Its [str()] writes integers in decimal. *)
Module Fixture.

Definition table_loads (table : list (str * pyval)) (s : str) : result pyval :=
  match dict_lookup s table with
  | Some v => Ok v
  | None => Raise JSONDecodeError
  end.

Definition runtime (table : list (str * pyval)) : PyRuntime := {|
  json_loads := table_loads table;
  py_repr := fun v => match v with PInt z => decimal z | _ => lit "<object>" end;
  float_repr := @float_repr Demo.runtime
|}.

(** [{"generation": null}] *)
Definition null_generation : str :=
  lit "{" ++ json_string (lit "generation") ++ lit ": null}".

(** [{"topic": 5}] *)
Definition topic_five : str :=
  lit "{" ++ json_string (lit "topic") ++ lit ": 5}".

Definition documents : list (str * pyval) :=
  [(null_generation, PDict [(lit "generation", PNone)]);
   (lit "[]", PList []);
   (lit "{}", PDict []);
   (topic_five, PDict [(lit "topic", PInt 5)])].

Definition five : pyval := PInt 5.

End Fixture.

(** * Properties *)

(** ** The functions on concrete inputs *)

Example clean_llama_output_example :
  clean_llama_output
    (lit "<s>[INST] hi [/INST]  Title" ++ [NL; NL; NL; NL] ++ lit "Body</s> " ++ [NL])
  = lit "hi   Title" ++ [NL; NL] ++ lit "Body".
Proof. vm_compute. reflexivity. Qed.

Example clean_llama_output_nested : clean_llama_output (lit "<<s>s>") = lit "<s>".
Proof. vm_compute. reflexivity. Qed.

Example clean_llama_output_joined :
  clean_llama_output (lit "[<s>INST]") = [].
Proof. vm_compute. reflexivity. Qed.

Example clean_llama_output_ends :
  clean_llama_output ([NL; NL; NL] ++ lit "a" ++ [NL; NL] ++ lit "b" ++ [NL; NL; NL; NL])
  = lit "a" ++ [NL; NL] ++ lit "b".
Proof. vm_compute. reflexivity. Qed.

Example build_prompt_example :
  build_prompt (lit "tea")
  = lit "<s>[INST]" ++ [NL]
    ++ lit "You are a professional blog writer." ++ [NL; NL]
    ++ lit "Write a clear, concise, and well-structured 200-word blog post on the topic: "
    ++ [DQUOTE] ++ lit "tea" ++ [DQUOTE] ++ lit "." ++ [NL]
    ++ lit "Format it using:" ++ [NL]
    ++ lit "- A title in heading style" ++ [NL]
    ++ lit "- Subheadings for sections" ++ [NL]
    ++ lit "- Bullet points where applicable" ++ [NL]
    ++ lit "Avoid repeating the prompt or adding instructional tokens. End the blog naturally."
    ++ [NL] ++ lit "[/INST]".
Proof. vm_compute. reflexivity. Qed.

Example json_string_example :
  json_string ([DQUOTE] ++ lit "a" ++ [NL; 233; 128512])
  = [DQUOTE; BACKSLASH; DQUOTE] ++ lit "a" ++ [BACKSLASH] ++ lit "n"
    ++ [BACKSLASH] ++ lit "u00e9" ++ [BACKSLASH] ++ lit "ud83d"
    ++ [BACKSLASH] ++ lit "ude00" ++ [DQUOTE].
Proof. vm_compute. reflexivity. Qed.

Example encode_utf8_example :
  encode_utf8 [97; 233; 8364; 128512]
  = Ok [97; 195; 169; 226; 130; 172; 240; 159; 152; 128].
Proof. vm_compute. reflexivity. Qed.

Example encode_utf8_surrogate : encode_utf8 [97; 55296] = Raise UnicodeEncodeError.
Proof. vm_compute. reflexivity. Qed.

Example s3_key_example :
  @s3_key_now Demo.all_up = lit "blog_output/2024_05_17_120009.txt".
Proof. vm_compute. reflexivity. Qed.

Example generation_request_example :
  @json_dumps Demo.runtime (generation_payload (lit "P"))
  = lit "{" ++ json_string (lit "prompt") ++ lit ": " ++ json_string (lit "P")
    ++ lit ", " ++ json_string (lit "temperature") ++ lit ": 0.7, "
    ++ json_string (lit "top_p") ++ lit ": 0.9, "
    ++ json_string (lit "max_gen_len") ++ lit ": 384}".
Proof. vm_compute. reflexivity. Qed.

(** ** [re.sub] *)

Section ReSubFacts.
Variable match_at : str -> option nat.
Variable repl : str.

Lemma re_sub_from_drop (k : nat) (s : str) :
  re_sub_from match_at repl k s = re_sub match_at repl (drop k s).
Proof.
  revert k. induction s as [|c r IH]; intros k.
  - by destruct k.
  - destruct k as [|k]; [done|]. simpl. apply IH.
Qed.

Lemma re_sub_nil : re_sub match_at repl [] = [].
Proof. done. Qed.

Lemma re_sub_match (s : str) (n : nat) :
  match_at s = Some n -> (0 < n <= length s)%nat ->
  re_sub match_at repl s = repl ++ re_sub match_at repl (drop n s).
Proof.
  intros Hm [Hn Hlen]. destruct s as [|c r]; [simpl in Hlen; lia|].
  destruct n as [|k]; [lia|].
  unfold re_sub at 1. simpl. rewrite Hm. by rewrite re_sub_from_drop.
Qed.

Lemma re_sub_copy (c : char) (r : str) :
  match_at (c :: r) = None ->
  re_sub match_at repl (c :: r) = c :: re_sub match_at repl r.
Proof. intros Hm. unfold re_sub. simpl. by rewrite Hm. Qed.

(** A text in which the pattern matches nowhere is left as it is. *)
Lemma re_sub_no_match (s : str) :
  (forall i : nat, match_at (drop i s) = None) ->
  re_sub match_at repl s = s.
Proof.
  induction s as [|c r IH]; intros Hm; [done|].
  rewrite re_sub_copy by apply (Hm 0%nat).
  f_equal. apply IH. intros i. apply (Hm (S i)).
Qed.
End ReSubFacts.

(** ** Occurrences and containment *)

Lemma starts_with_app (p s : str) : starts_with p (p ++ s) = true.
Proof. induction p as [|a p IH]; [done|]. simpl. by rewrite N.eqb_refl. Qed.

Lemma starts_with_prefix (p s : str) :
  starts_with p s = true -> exists t, s = p ++ t.
Proof.
  revert s. induction p as [|a p IH]; intros s Hs.
  - by exists s.
  - destruct s as [|b s]; [done|]. simpl in Hs.
    apply andb_prop in Hs as [Hab Hs]. apply N.eqb_eq in Hab as ->.
    destruct (IH _ Hs) as [t ->]. by exists t.
Qed.

Lemma contains_false_drop (p s : str) (i : nat) :
  contains p s = false -> starts_with p (drop i s) = false.
Proof.
  revert i. induction s as [|c r IH]; intros i Hc.
  - destruct i; simpl in *; by destruct (starts_with p []).
  - simpl in Hc. apply orb_false_elim in Hc as [H0 Hr].
    destruct i as [|i]; [done|]. simpl. by apply IH.
Qed.

Lemma occurrences_app_l (p a s : str) :
  (occurrences p s <= occurrences p (a ++ s))%nat.
Proof.
  induction a as [|c a IH]; [done|].
  change ((c :: a) ++ s) with (c :: (a ++ s)).
  destruct s; simpl in *; lia.
Qed.

Lemma occurrences_at (p a b : str) :
  (1 <= occurrences p (a ++ p ++ b))%nat.
Proof.
  etrans; [|apply occurrences_app_l].
  destruct p as [|x p]; simpl.
  - destruct b; simpl; lia.
  - rewrite N.eqb_refl, starts_with_app. simpl. lia.
Qed.

(** ** Newline runs *)

Lemma leading_newlines_le (s : str) : (leading_newlines s <= length s)%nat.
Proof.
  induction s as [|c r IH]; [done|]. simpl. destruct (c =? NL); lia.
Qed.

Lemma leading_newlines_drop (s : str) :
  leading_newlines (drop (leading_newlines s) s) = O.
Proof.
  induction s as [|c r IH]; [done|]. simpl.
  destruct (c =? NL) eqn:E; simpl; [done|]. by rewrite E.
Qed.

Lemma leading_newlines_app_l (a t : str) :
  leading_newlines t = O ->
  leading_newlines (a ++ t) = leading_newlines a.
Proof.
  intros Ht. induction a as [|c a IH]; [done|]. simpl.
  destruct (c =? NL); [by rewrite IH|done].
Qed.

Lemma leading_newlines_repeat (n : nat) (b : str) :
  leading_newlines b = O ->
  leading_newlines (repeat NL n ++ b) = n.
Proof.
  intros Hb. induction n as [|n IH]; [done|]. simpl. by rewrite IH.
Qed.

Lemma collapse_cons (c : char) (r : str) :
  collapse_newlines (c :: r) =
    if (3 <=? leading_newlines (c :: r))%nat
    then [NL; NL] ++ collapse_newlines (drop (leading_newlines (c :: r)) (c :: r))
    else c :: collapse_newlines r.
Proof.
  unfold collapse_newlines.
  destruct (3 <=? leading_newlines (c :: r))%nat eqn:E.
  - apply Nat.leb_le in E.
    apply re_sub_match.
    + unfold match_newlines3. apply Nat.leb_le in E. by rewrite E.
    + split; [lia|apply leading_newlines_le].
  - apply re_sub_copy. unfold match_newlines3. by rewrite E.
Qed.

Lemma no_long_run_cons (c : char) (s : str) :
  (leading_newlines (c :: s) < 3)%nat -> no_long_run s -> no_long_run (c :: s).
Proof. intros H0 Hs [|i]; [done|]. apply (Hs i). Qed.

Lemma no_long_run_nil : no_long_run [].
Proof. intros i. rewrite drop_nil. simpl. lia. Qed.

Lemma collapse_runs (n : nat) :
  forall s : str, (length s <= n)%nat ->
    no_long_run (collapse_newlines s) /\
    leading_newlines (collapse_newlines s) = (leading_newlines s `min` 2)%nat.
Proof.
  induction n as [|n IH]; intros s Hlen.
  - destruct s; [|simpl in Hlen; lia]. split; [apply no_long_run_nil|done].
  - destruct s as [|c r]; [split; [apply no_long_run_nil|done]|].
    simpl in Hlen. rewrite collapse_cons.
    destruct (3 <=? leading_newlines (c :: r))%nat eqn:E.
    + apply Nat.leb_le in E.
      set (t := drop (leading_newlines (c :: r)) (c :: r)).
      assert (Ht : (length t <= n)%nat).
      { unfold t. rewrite length_drop. cbn [length]. lia. }
      destruct (IH t Ht) as [Hrun Hlead].
      assert (H0 : leading_newlines (collapse_newlines t) = O).
      { rewrite Hlead. unfold t. by rewrite leading_newlines_drop. }
      split.
      * apply no_long_run_cons; [simpl; rewrite H0; lia|].
        apply no_long_run_cons; [simpl; rewrite H0; lia|done].
      * change (leading_newlines ([NL; NL] ++ collapse_newlines t))
          with (S (S (leading_newlines (collapse_newlines t)))).
        rewrite H0. lia.
    + apply Nat.leb_gt in E.
      destruct (IH r ltac:(lia)) as [Hrun Hlead].
      assert (Hhead : leading_newlines (c :: collapse_newlines r)
                      = (leading_newlines (c :: r) `min` 2)%nat).
      { simpl in E |- *. destruct (c =? NL); [lia|done]. }
      split; [|done]. apply no_long_run_cons; [|done]. rewrite Hhead. lia.
Qed.

Lemma collapse_no_long_run (s : str) : no_long_run (collapse_newlines s).
Proof. apply (collapse_runs (length s) s). lia. Qed.

Lemma no_long_run_collapse_id (s : str) :
  no_long_run s -> collapse_newlines s = s.
Proof.
  intros Hs. apply re_sub_no_match. intros i.
  unfold match_newlines3. specialize (Hs i).
  destruct (3 <=? leading_newlines (drop i s))%nat eqn:E; [|done].
  apply Nat.leb_le in E. lia.
Qed.

Lemma no_long_run_no_triple (s a b : str) :
  no_long_run s -> s <> a ++ [NL; NL; NL] ++ b.
Proof.
  intros Hs ->. specialize (Hs (length a)).
  rewrite drop_app_length in Hs. simpl in Hs. lia.
Qed.

(** Collapsing goes through a boundary at which no run continues. *)
Lemma collapse_app (n : nat) :
  forall a t : str, (length a <= n)%nat ->
    (forall i : nat, (i < length a)%nat ->
       leading_newlines (drop i a ++ t) = leading_newlines (drop i a)) ->
    collapse_newlines (a ++ t) = collapse_newlines a ++ collapse_newlines t.
Proof.
  induction n as [|n IH]; intros a t Hlen Hb.
  - by destruct a; [|simpl in Hlen; lia].
  - destruct a as [|c r]; [done|]. simpl in Hlen.
    pose proof (Hb 0%nat ltac:(simpl; lia)) as H0.
    rewrite drop_0 in H0. cbn [app] in H0 |- *.
    rewrite !collapse_cons, H0.
    destruct (3 <=? leading_newlines (c :: r))%nat eqn:E.
    + pose proof (leading_newlines_le (c :: r)) as Hle.
      change (c :: r ++ t) with ((c :: r) ++ t).
      rewrite drop_app_le by done.
      rewrite IH; [done| |].
      * rewrite length_drop. apply Nat.leb_le in E. cbn [length]. lia.
      * intros i Hi. rewrite length_drop in Hi. rewrite drop_drop.
        apply Hb. lia.
    + simpl. f_equal. apply IH; [lia|].
      intros i Hi. apply (Hb (S i)). simpl. lia.
Qed.

Lemma collapse_app_l (a t : str) :
  leading_newlines t = O ->
  collapse_newlines (a ++ t) = collapse_newlines a ++ collapse_newlines t.
Proof.
  intros Ht. apply (collapse_app (length a)); [done|].
  intros i _. by apply leading_newlines_app_l.
Qed.

Lemma leading_newlines_snoc (a t : str) (c : char) :
  (c =? NL) = false ->
  leading_newlines ((a ++ [c]) ++ t) = leading_newlines (a ++ [c]).
Proof.
  intros Hc. induction a as [|x a IH]; simpl.
  - by rewrite Hc.
  - destruct (x =? NL); [by rewrite IH|done].
Qed.

Lemma collapse_app_r (a t : str) (c : char) :
  (c =? NL) = false ->
  collapse_newlines ((a ++ [c]) ++ t)
  = collapse_newlines (a ++ [c]) ++ collapse_newlines t.
Proof.
  intros Hc. apply (collapse_app (length (a ++ [c]))); [done|].
  intros i Hi. rewrite length_app in Hi. simpl in Hi.
  rewrite drop_app_le by lia. by apply leading_newlines_snoc.
Qed.

(** A run of three newlines or more between two other characters becomes
    two newlines. *)
Lemma collapse_run (a b : str) (c : char) (n : nat) :
  (c =? NL) = false -> leading_newlines b = O -> (3 <= n)%nat ->
  collapse_newlines ((a ++ [c]) ++ repeat NL n ++ b)
  = collapse_newlines (a ++ [c]) ++ [NL; NL] ++ collapse_newlines b.
Proof.
  intros Hc Hb Hn. rewrite collapse_app_r by done. f_equal.
  destruct n as [|n]; [lia|].
  change (repeat NL (S n) ++ b) with (NL :: (repeat NL n ++ b)).
  rewrite collapse_cons.
  change (NL :: (repeat NL n ++ b)) with (repeat NL (S n) ++ b).
  rewrite leading_newlines_repeat by done.
  apply Nat.leb_le in Hn as ->.
  rewrite drop_app_length'; [done|]. by rewrite repeat_length.
Qed.

(** ** [strip] *)

Lemma lstrip_head_ok (s : str) : head_ok (lstrip s) = true.
Proof.
  induction s as [|c r IH]; [done|]. simpl.
  destruct (is_space c) eqn:E; [done|]. simpl. by rewrite E.
Qed.

Lemma lstrip_id (s : str) : head_ok s = true -> lstrip s = s.
Proof.
  destruct s as [|c r]; [done|]. simpl. by destruct (is_space c).
Qed.

Lemma lstrip_split (s : str) : exists p, s = p ++ lstrip s.
Proof.
  induction s as [|c r [p IH]]; [by exists []|]. simpl.
  destruct (is_space c); [|by exists []].
  exists (c :: p). simpl. by rewrite <- IH.
Qed.

Lemma lstrip_app (a x : str) : lstrip a <> [] -> lstrip (a ++ x) = lstrip a ++ x.
Proof.
  induction a as [|c a IH]; [done|]. simpl.
  destruct (is_space c); [apply IH|done].
Qed.

Lemma rstrip_app (y b : str) : rstrip b <> [] -> rstrip (y ++ b) = y ++ rstrip b.
Proof.
  unfold rstrip. intros Hb.
  rewrite rev_app_distr, lstrip_app.
  - by rewrite rev_app_distr, rev_involutive.
  - intros E. apply Hb. by rewrite E.
Qed.

Lemma strip_middle (a t b : str) :
  lstrip a <> [] -> rstrip b <> [] ->
  strip (a ++ t ++ b) = lstrip a ++ t ++ rstrip b.
Proof.
  intros Ha Hb. unfold strip. rewrite lstrip_app by done.
  rewrite (app_assoc (lstrip a) t b), rstrip_app by done.
  by rewrite <- app_assoc.
Qed.

Lemma strip_head_ok (s : str) : head_ok (strip s) = true.
Proof.
  unfold strip, rstrip.
  pose proof (lstrip_head_ok s) as Hu.
  destruct (lstrip_split (rev (lstrip s))) as [p Hp].
  apply (f_equal (@rev char)) in Hp.
  rewrite rev_involutive, rev_app_distr in Hp.
  destruct (rev (lstrip (rev (lstrip s)))) as [|c w]; [done|].
  rewrite Hp in Hu. exact Hu.
Qed.

Lemma strip_last_ok (s : str) : head_ok (rev (strip s)) = true.
Proof.
  unfold strip, rstrip. rewrite rev_involutive. apply lstrip_head_ok.
Qed.

Lemma strip_id (s : str) :
  head_ok s = true -> head_ok (rev s) = true -> strip s = s.
Proof.
  intros Hh Hl. unfold strip, rstrip.
  by rewrite (lstrip_id s), (lstrip_id (rev s)), rev_involutive.
Qed.

Lemma not_space_not_newline (c : char) : is_space c = false -> (c =? NL) = false.
Proof.
  intros Hc. destruct (c =? NL) eqn:E; [|done].
  apply N.eqb_eq in E as ->. done.
Qed.

Lemma collapse_head_ok (s : str) :
  head_ok s = true -> head_ok (collapse_newlines s) = true.
Proof.
  destruct s as [|c r]; [done|]. simpl. intros Hc.
  apply negb_true_iff in Hc.
  rewrite collapse_cons. simpl.
  rewrite (not_space_not_newline c Hc). simpl. by rewrite Hc.
Qed.

Lemma collapse_last_ok (s : str) :
  head_ok (rev s) = true -> head_ok (rev (collapse_newlines s)) = true.
Proof.
  intros Hl. destruct (rev s) as [|c w] eqn:E.
  - apply (f_equal (@rev char)) in E. rewrite rev_involutive in E.
    by rewrite E.
  - apply (f_equal (@rev char)) in E. rewrite rev_involutive in E.
    simpl in E, Hl. apply negb_true_iff in Hl.
    pose proof (not_space_not_newline c Hl) as Hc.
    rewrite E, collapse_app_l by (simpl; by rewrite Hc).
    rewrite (collapse_cons c []). simpl. rewrite Hc. simpl.
    rewrite rev_app_distr. simpl. by rewrite Hl.
Qed.

(** ** The sanitizer *)

Lemma clean_head_ok (x : str) : head_ok (clean_llama_output x) = true.
Proof. apply collapse_head_ok, strip_head_ok. Qed.

Lemma clean_last_ok (x : str) : head_ok (rev (clean_llama_output x)) = true.
Proof. apply collapse_last_ok, strip_last_ok. Qed.

Lemma clean_no_long_run (x : str) : no_long_run (clean_llama_output x).
Proof. apply collapse_no_long_run. Qed.

Lemma remove_s_tag_id (s : str) :
  contains (lit "<s>") s = false -> contains (lit "</s>") s = false ->
  re_sub match_s_tag [] s = s.
Proof.
  intros H1 H2. apply re_sub_no_match. intros i. unfold match_s_tag.
  by rewrite (contains_false_drop _ _ i H1), (contains_false_drop _ _ i H2).
Qed.

Lemma remove_inst_tag_id (s : str) :
  contains (lit "[INST]") s = false -> contains (lit "[/INST]") s = false ->
  re_sub match_inst_tag [] s = s.
Proof.
  intros H1 H2. apply re_sub_no_match. intros i. unfold match_inst_tag.
  by rewrite (contains_false_drop _ _ i H1), (contains_false_drop _ _ i H2).
Qed.

(** A text that is free of delimiter tokens, trimmed and without long
    newline runs is a fixed point of the sanitizer. *)
Lemma clean_fixed_point (y : str) :
  has_delimiter y = false -> head_ok y = true -> head_ok (rev y) = true ->
  no_long_run y -> clean_llama_output y = y.
Proof.
  unfold has_delimiter. intros Hd Hh Hl Hr.
  apply orb_false_elim in Hd as [Hd H4].
  apply orb_false_elim in Hd as [Hd H3].
  apply orb_false_elim in Hd as [H1 H2].
  unfold clean_llama_output.
  rewrite remove_s_tag_id, remove_inst_tag_id, strip_id by done.
  by apply no_long_run_collapse_id.
Qed.

(** ** What the sanitizer removes *)

Lemma re_sub_from_length (m : str -> option nat) (k : nat) (s : str) :
  (length (re_sub_from m [] k s) <= length s)%nat.
Proof.
  revert k. induction s as [|c r IH]; intros k; [done|]. simpl.
  destruct k as [|k]; [|specialize (IH k); lia].
  destruct (m (c :: r)) as [[|j]|].
  - specialize (IH O). simpl. lia.
  - specialize (IH j). simpl. lia.
  - specialize (IH O). simpl. lia.
Qed.

(** Deleting the matches of a pattern that matches somewhere shortens the
    text. *)
Lemma re_sub_shrinks (m : str -> option nat) (s : str) (i k : nat) :
  (i < length s)%nat -> m (drop i s) = Some (S k) ->
  (length (re_sub m [] s) < length s)%nat.
Proof.
  revert i. induction s as [|c r IH]; intros i Hi Hm; [simpl in Hi; lia|].
  unfold re_sub in *. simpl.
  destruct (m (c :: r)) as [[|j]|] eqn:E.
  - destruct i as [|i]; [simpl in Hm; congruence|].
    simpl in Hi, Hm |- *. specialize (IH i ltac:(lia) Hm). lia.
  - pose proof (re_sub_from_length m j r). simpl. lia.
  - destruct i as [|i]; [simpl in Hm; congruence|].
    simpl in Hi, Hm |- *. specialize (IH i ltac:(lia) Hm). lia.
Qed.

Lemma contains_true_at (p s : str) :
  p <> [] -> contains p s = true ->
  exists i : nat, (i < length s)%nat /\ starts_with p (drop i s) = true.
Proof.
  intros Hp. induction s as [|c r IH]; intros Hc.
  - destruct p; [done|]. simpl in Hc. done.
  - change (contains p (c :: r)) with (starts_with p (c :: r) || contains p r) in Hc.
    destruct (starts_with p (c :: r)) eqn:E.
    + exists O. split; [simpl; lia|done].
    + destruct (IH Hc) as (i & Hi & Hs). exists (S i). split; [simpl; lia|done].
Qed.

Lemma lstrip_length (s : str) : (length (lstrip s) <= length s)%nat.
Proof.
  destruct (lstrip_split s) as [p Hp].
  rewrite Hp at 2. rewrite length_app. lia.
Qed.

Lemma strip_length (s : str) : (length (strip s) <= length s)%nat.
Proof.
  unfold strip, rstrip. rewrite length_rev.
  etrans; [apply lstrip_length|]. rewrite length_rev. apply lstrip_length.
Qed.

Lemma collapse_length (n : nat) :
  forall s : str, (length s <= n)%nat ->
    (length (collapse_newlines s) <= length s)%nat.
Proof.
  induction n as [|n IH]; intros s Hlen.
  - by destruct s; [|simpl in Hlen; lia].
  - destruct s as [|c r]; [done|]. rewrite collapse_cons.
    destruct (3 <=? leading_newlines (c :: r))%nat eqn:E.
    + apply Nat.leb_le in E.
      pose proof (leading_newlines_le (c :: r)) as Hle.
      pose proof (IH (drop (leading_newlines (c :: r)) (c :: r))) as IH'.
      rewrite length_drop in IH'. cbn [length] in Hlen, Hle, IH' |- *.
      rewrite length_app. cbn [length]. lia.
    + simpl in Hlen |- *. specialize (IH r). lia.
Qed.

Lemma clean_length_le (y : str) :
  (length (clean_llama_output y)
   <= length (re_sub match_inst_tag [] (re_sub match_s_tag [] y)))%nat.
Proof.
  unfold clean_llama_output.
  etrans; [by apply (collapse_length _ _ (Nat.le_refl _))|apply strip_length].
Qed.

Lemma s_tag_shrinks (y : str) :
  contains (lit "<s>") y || contains (lit "</s>") y = true ->
  (length (re_sub match_s_tag [] y) < length y)%nat.
Proof.
  intros Hc.
  assert (exists i k, (i < length y)%nat /\ match_s_tag (drop i y) = Some (S k))
    as (i & k & Hi & Hm).
  { unfold match_s_tag. apply orb_prop in Hc as [Hc|Hc];
      apply contains_true_at in Hc as (i & Hi & Hs); try done; exists i.
    - destruct (starts_with (lit "</s>") (drop i y)); [by exists 3%nat|].
      rewrite Hs. by exists 2%nat.
    - rewrite Hs. by exists 3%nat. }
  by apply (re_sub_shrinks _ _ i k).
Qed.

Lemma inst_tag_shrinks (y : str) :
  contains (lit "[INST]") y || contains (lit "[/INST]") y = true ->
  (length (re_sub match_inst_tag [] y) < length y)%nat.
Proof.
  intros Hc.
  assert (exists i k, (i < length y)%nat /\ match_inst_tag (drop i y) = Some (S k))
    as (i & k & Hi & Hm).
  { unfold match_inst_tag. apply orb_prop in Hc as [Hc|Hc];
      apply contains_true_at in Hc as (i & Hi & Hs); try done; exists i.
    - destruct (starts_with (lit "[/INST]") (drop i y)); [by exists 6%nat|].
      rewrite Hs. by exists 5%nat.
    - rewrite Hs. by exists 6%nat. }
  by apply (re_sub_shrinks _ _ i k).
Qed.

(** The sanitizer shortens a text in which a delimiter token occurs. *)
Lemma clean_shrinks (y : str) :
  has_delimiter y = true -> (length (clean_llama_output y) < length y)%nat.
Proof.
  unfold has_delimiter. rewrite <- orb_assoc. intros Hd.
  pose proof (clean_length_le y) as Hle.
  pose proof (re_sub_from_length match_inst_tag O (re_sub match_s_tag [] y)) as H2.
  pose proof (re_sub_from_length match_s_tag O y) as H1.
  fold (re_sub match_inst_tag [] (re_sub match_s_tag [] y)) in H2.
  fold (re_sub match_s_tag [] y) in H1.
  destruct (contains (lit "<s>") y || contains (lit "</s>") y) eqn:Es.
  - pose proof (s_tag_shrinks y Es). lia.
  - simpl in Hd. apply orb_false_elim in Es as [E1 E2].
    rewrite (remove_s_tag_id y E1 E2) in Hle, H2.
    pose proof (inst_tag_shrinks y Hd). lia.
Qed.

(** ** A newline run inside the text *)

Lemma starts_with_before_newline (tok s w : str) :
  forallb (fun x => negb (x =? NL)) tok = true ->
  starts_with tok (s ++ NL :: w) = starts_with tok s.
Proof.
  revert s. induction tok as [|a t IH]; intros s Ht; [by destruct s|].
  simpl in Ht. apply andb_prop in Ht as [Ha Ht].
  destruct s as [|b s]; simpl.
  - apply negb_true_iff in Ha. by rewrite Ha.
  - by rewrite IH.
Qed.

Lemma starts_with_length (tok s : str) :
  starts_with tok s = true -> (length tok <= length s)%nat.
Proof.
  intros Hs. destruct (starts_with_prefix _ _ Hs) as [t ->].
  rewrite length_app. lia.
Qed.

(** Deleting the matches of a pattern that never reaches over a newline
    goes through a newline. *)
Lemma re_sub_newline (m : str -> option nat) (w : str) (n : nat) :
  (forall s, m (s ++ NL :: w) = m s) ->
  (forall s k, m s = Some k -> (k <= length s)%nat) ->
  forall u : str, (length u <= n)%nat ->
    re_sub m [] (u ++ NL :: w) = re_sub m [] u ++ NL :: re_sub m [] w.
Proof.
  intros Hm Hk. induction n as [|n IH]; intros u Hlen.
  - destruct u; [|simpl in Hlen; lia].
    pose proof (Hm []) as H0. simpl in H0 |- *.
    unfold re_sub. simpl.
    destruct (m (NL :: w)) as [[|k]|] eqn:E; [done| |done].
    symmetry in H0. apply Hk in H0. simpl in H0. lia.
  - destruct u as [|c r]; [apply (IH []); simpl; lia|].
    simpl in Hlen. pose proof (Hm (c :: r)) as Hm0.
    change ((c :: r) ++ NL :: w) with (c :: (r ++ NL :: w)) in *.
    destruct (m (c :: r)) as [[|k]|] eqn:E.
    + unfold re_sub. simpl. rewrite Hm0, E. cbn [app]. f_equal.
      apply (IH r). lia.
    + pose proof (Hk _ _ E) as Hle.
      rewrite (re_sub_match m [] (c :: r) (S k) E) by lia.
      rewrite (re_sub_match m [] (c :: (r ++ NL :: w)) (S k) Hm0).
      * change (c :: (r ++ NL :: w)) with ((c :: r) ++ NL :: w).
        rewrite drop_app_le by done. apply IH.
        rewrite length_drop. cbn [length]. lia.
      * cbn [length] in *. rewrite length_app. lia.
    + rewrite (re_sub_copy m [] c r E), (re_sub_copy m [] c _ Hm0).
      simpl. f_equal. apply IH. lia.
Qed.
Lemma match_s_tag_newline (s w : str) :
  match_s_tag (s ++ NL :: w) = match_s_tag s.
Proof. unfold match_s_tag. by rewrite !starts_with_before_newline. Qed.

Lemma match_inst_tag_newline (s w : str) :
  match_inst_tag (s ++ NL :: w) = match_inst_tag s.
Proof. unfold match_inst_tag. by rewrite !starts_with_before_newline. Qed.

Lemma match_s_tag_bound (s : str) (k : nat) :
  match_s_tag s = Some k -> (k <= length s)%nat.
Proof.
  unfold match_s_tag.
  destruct (starts_with (lit "</s>") s) eqn:E1;
    [intros [= <-]; apply (starts_with_length _ _ E1)|].
  destruct (starts_with (lit "<s>") s) eqn:E2; [|done].
  intros [= <-]. apply (starts_with_length _ _ E2).
Qed.

Lemma match_inst_tag_bound (s : str) (k : nat) :
  match_inst_tag s = Some k -> (k <= length s)%nat.
Proof.
  unfold match_inst_tag.
  destruct (starts_with (lit "[/INST]") s) eqn:E1;
    [intros [= <-]; apply (starts_with_length _ _ E1)|].
  destruct (starts_with (lit "[INST]") s) eqn:E2; [|done].
  intros [= <-]. apply (starts_with_length _ _ E2).
Qed.

Lemma remove_tokens_newline (u w : str) :
  remove_tokens (u ++ NL :: w) = remove_tokens u ++ NL :: remove_tokens w.
Proof.
  unfold remove_tokens.
  rewrite (re_sub_newline match_s_tag w (length u)
             (fun s => match_s_tag_newline s w) match_s_tag_bound u) by done.
  by rewrite (re_sub_newline match_inst_tag (re_sub match_s_tag [] w)
                (length (re_sub match_s_tag [] u))
                (fun s => match_inst_tag_newline s _) match_inst_tag_bound _).
Qed.

Lemma remove_tokens_run (n : nat) (v : str) :
  remove_tokens (repeat NL n ++ v) = repeat NL n ++ remove_tokens v.
Proof.
  induction n as [|n IH]; [done|].
  change (repeat NL (S n) ++ v) with ([] ++ NL :: (repeat NL n ++ v)).
  rewrite remove_tokens_newline, IH. done.
Qed.

Lemma remove_tokens_around_run (u v : str) (n : nat) :
  (0 < n)%nat ->
  remove_tokens (u ++ repeat NL n ++ v)
  = remove_tokens u ++ repeat NL n ++ remove_tokens v.
Proof.
  destruct n as [|n]; [lia|]. intros _.
  change (repeat NL (S n) ++ v) with (NL :: (repeat NL n ++ v)).
  rewrite remove_tokens_newline, remove_tokens_run. done.
Qed.

Lemma lstrip_snoc (u : str) (c : char) :
  is_space c = false -> exists w, lstrip (u ++ [c]) = w ++ [c].
Proof.
  intros Hc. induction u as [|x u [w IH]]; simpl.
  - rewrite Hc. by exists [].
  - destruct (is_space x); [by exists w|]. by exists (x :: u).
Qed.

Lemma rstrip_snoc (s : str) (c : char) :
  is_space c = false -> rstrip (s ++ [c]) = s ++ [c].
Proof.
  intros Hc. unfold rstrip. rewrite rev_app_distr. simpl. rewrite Hc.
  simpl. by rewrite rev_involutive.
Qed.

Lemma rstrip_cons (d : char) (v : str) :
  is_space d = false -> exists w, rstrip (d :: v) = d :: w.
Proof.
  intros Hd. unfold rstrip. simpl.
  destruct (lstrip_snoc (rev v) d Hd) as [w ->].
  exists (rev w). by rewrite rev_app_distr.
Qed.

(** A run of three newlines or more between two visible characters of the
    cleaned text comes out as exactly two newlines. *)
Lemma clean_run (u v u0 v0 : str) (c d : char) (n : nat) :
  remove_tokens u = u0 ++ [c] -> is_space c = false ->
  remove_tokens v = d :: v0 -> is_space d = false ->
  (3 <= n)%nat ->
  exists a b : str,
    clean_llama_output u = a ++ [c] /\
    clean_llama_output v = d :: b /\
    clean_llama_output (u ++ repeat NL n ++ v) = (a ++ [c]) ++ [NL; NL] ++ d :: b.
Proof.
  intros Hu Hc Hv Hd Hn.
  pose proof (not_space_not_newline c Hc) as Hcn.
  pose proof (not_space_not_newline d Hd) as Hdn.
  destruct (lstrip_snoc u0 c Hc) as [w Hw].
  destruct (rstrip_cons d v0 Hd) as [w' Hw'].
  assert (Hcu : clean_llama_output u = collapse_newlines w ++ [c]).
  { unfold clean_llama_output. fold (remove_tokens u).
    rewrite Hu. unfold strip. rewrite Hw, (rstrip_snoc w c Hc).
    rewrite collapse_app_l by (simpl; by rewrite Hcn).
    f_equal. rewrite collapse_cons. simpl. by rewrite Hcn. }
  assert (Hdv : collapse_newlines (d :: w') = d :: collapse_newlines w').
  { rewrite collapse_cons. simpl. by rewrite Hdn. }
  assert (Hcv : clean_llama_output v = d :: collapse_newlines w').
  { unfold clean_llama_output. fold (remove_tokens v).
    rewrite Hv. unfold strip. simpl lstrip. rewrite Hd, Hw'. exact Hdv. }
  exists (collapse_newlines w), (collapse_newlines w').
  split; [done|]. split; [done|].
  unfold clean_llama_output. fold (remove_tokens (u ++ repeat NL n ++ v)).
  rewrite remove_tokens_around_run by lia. rewrite Hu, Hv.
  rewrite strip_middle.
  - rewrite Hw, Hw'. rewrite collapse_run; [|done|simpl; by rewrite Hdn|done].
    rewrite Hdv. rewrite collapse_app_l by (simpl; by rewrite Hcn).
    do 2 f_equal. rewrite collapse_cons. simpl. by rewrite Hcn.
  - rewrite Hw. by destruct w.
  - by rewrite Hw'.
Qed.

(** ** The sanitizer: what the specification states *)

(** C9, the counterexample: a run of three newlines at the start of the
    input is not collapsed to two newlines, it is removed by the trim that
    comes before the collapse; and two runs that the removal of a token
    joins come out as one run of two. *)
Lemma leading_run_is_removed :
  clean_llama_output ([NL; NL; NL] ++ lit "a") = lit "a" /\
  contains [NL; NL] (clean_llama_output ([NL; NL; NL] ++ lit "a")) = false /\
  clean_llama_output (lit "a" ++ [NL; NL; NL] ++ lit "<s>" ++ [NL; NL; NL] ++ lit "b")
  = lit "a" ++ [NL; NL] ++ lit "b".
Proof. vm_compute. repeat split; reflexivity. Qed.

(** C9, as amended: for every input, the output of the sanitizer contains
    no run of three or more consecutive newline characters; every run of
    three or more newlines that stands between two other characters of the
    text, once its tokens are removed and its ends are trimmed, is
    collapsed to exactly two newlines.  (A run at either end of that text
    is removed by the trim.) *)
Theorem sanitizer_no_three_newlines :
  (forall x a b : str, clean_llama_output x <> a ++ [NL; NL; NL] ++ b) /\
  (forall (x a b : str) (c d : char) (n : nat),
      strip (remove_tokens x) = (a ++ [c]) ++ repeat NL n ++ d :: b ->
      (c =? NL) = false -> (d =? NL) = false -> (3 <= n)%nat ->
      clean_llama_output x
      = (collapse_newlines a ++ [c]) ++ [NL; NL] ++ d :: collapse_newlines b).
Proof.
  split.
  - intros x a b. apply no_long_run_no_triple, clean_no_long_run.
  - intros x a b c d n Hx Hc Hd Hn.
    unfold clean_llama_output. fold (remove_tokens x). rewrite Hx.
    rewrite collapse_run; [|done|simpl; by rewrite Hd|done].
    rewrite collapse_app_l by (simpl; by rewrite Hc).
    rewrite (collapse_cons c []), (collapse_cons d b). simpl.
    by rewrite Hc, Hd.
Qed.

Lemma sanitizer_no_three_newlines_witness :
  clean_llama_output
    ([32] ++ lit "<s>a " ++ repeat NL 4 ++ lit " b</s>" ++ [NL; NL; NL])
    <> lit "a " ++ [NL; NL; NL] ++ lit " b"
  /\ clean_llama_output
       ([32] ++ lit "<s>a " ++ repeat NL 4 ++ lit " b</s>" ++ [NL; NL; NL])
     = (collapse_newlines (lit "a") ++ [32]) ++ [NL; NL]
       ++ 32 :: collapse_newlines (lit "b").
Proof.
  split.
  - apply (proj1 sanitizer_no_three_newlines).
  - apply (proj2 sanitizer_no_three_newlines _ (lit "a") (lit "b") 32 32 4%nat).
    + vm_compute. reflexivity.
    + reflexivity.
    + reflexivity.
    + lia.
Defined.

(** C4, the counterexample: removing the inner [<s>] of [<<s>s>] leaves
    [<s>], which a second pass removes. *)
Lemma sanitizer_not_idempotent :
  clean_llama_output (clean_llama_output (lit "<<s>s>"))
  <> clean_llama_output (lit "<<s>s>").
Proof. vm_compute. discriminate. Qed.

(** C4, as amended: the sanitizer is idempotent at [x] exactly when its
    output at [x] contains no delimiter token; on such an output it changes
    nothing. *)
Theorem sanitizer_idempotent_iff (x : str) :
  clean_llama_output (clean_llama_output x) = clean_llama_output x
  <-> has_delimiter (clean_llama_output x) = false.
Proof.
  split.
  - intros Heq. destruct (has_delimiter (clean_llama_output x)) eqn:E; [|done].
    apply clean_shrinks in E. rewrite Heq in E. lia.
  - intros Hd. apply clean_fixed_point; [done|..].
    + apply clean_head_ok.
    + apply clean_last_ok.
    + apply clean_no_long_run.
Qed.

Lemma sanitizer_idempotent_iff_witness :
  has_delimiter (clean_llama_output (lit " <s>[INST]Post[/INST]" ++ repeat NL 4 ++ lit "text</s> ")) = false
  /\ clean_llama_output (clean_llama_output (lit " <s>[INST]Post[/INST]" ++ repeat NL 4 ++ lit "text</s> "))
     = clean_llama_output (lit " <s>[INST]Post[/INST]" ++ repeat NL 4 ++ lit "text</s> ").
Proof.
  split.
  - vm_compute. reflexivity.
  - apply (proj2 (sanitizer_idempotent_iff _)). vm_compute. reflexivity.
Defined.

(** ** The prompt: what the specification states *)

Lemma build_prompt_eq (topic : str) :
  build_prompt topic = prompt_head ++ topic ++ prompt_tail.
Proof. unfold build_prompt. by apply strip_middle. Qed.

(** C5, the counterexample: the topic [blog] occurs four times in its
    prompt, three of them in the fixed instructions. *)
Lemma prompt_topic_not_once :
  lit "blog" <> [] /\
  occurrences (lit "blog") (build_prompt (lit "blog")) = 4%nat /\
  occurrences (lit "blog") (build_prompt (lit "blog")) <> 1%nat.
Proof. vm_compute. repeat split; discriminate. Qed.

(** C5, as amended: for every topic the prompt is the fixed instruction
    text with the topic put verbatim between its double quotes, so the
    topic occurs in the prompt at least once. *)
Theorem prompt_embeds_topic (topic : str) :
  build_prompt topic = prompt_head ++ topic ++ prompt_tail /\
  (1 <= occurrences topic (build_prompt topic))%nat.
Proof.
  split; [apply build_prompt_eq|].
  rewrite build_prompt_eq. apply occurrences_at.
Qed.

(** ** The generation step and the store *)

Section HandlerFacts.
Context `{PyRuntime} `{Services}.

(** The world after the generation call. *)
Lemma generate_blog_outcome (topic : pyval) (st : cloud) :
  exists blog : str,
    generate_blog topic st
    = (Ok blog, {| objects := objects st;
                   calls := calls st ++ [generation_call topic] |}).
Proof.
  unfold generate_blog, try_except, bind, bedrock_invoke_model, lift, ret.
  fold (generation_call topic).
  destruct (invoke_model _ _ _ _) as [rb|e]; [|by eexists].
  destruct (json_loads rb) as [j|e]; [|by eexists].
  destruct (py_get j _ _) as [v|e]; [|by eexists].
  destruct (expect_str v) as [s|e]; by eexists.
Qed.

Lemma generate_blog_effects (topic : pyval) (st st1 : cloud) (r : result str) :
  generate_blog topic st = (r, st1) ->
  objects st1 = objects st /\ calls st1 = calls st ++ [generation_call topic].
Proof.
  destruct (generate_blog_outcome topic st) as [blog Hg].
  rewrite Hg. by intros [= _ <-].
Qed.

Lemma save_to_s3_ok (content : str) (encoded : bytes) (st : cloud) :
  encode_utf8 content = Ok encoded ->
  put_object S3_BUCKET s3_key_now encoded = Ok tt ->
  save_to_s3 content st
  = (Ok (lit "s3://" ++ S3_BUCKET ++ lit "/" ++ s3_key_now),
     {| objects := <[(S3_BUCKET, s3_key_now) := encoded]> (objects st);
        calls := calls st ++ [store_call encoded] |}).
Proof.
  intros He Hp.
  unfold save_to_s3, try_except, bind, lift, ret, s3_put_object.
  by rewrite He, Hp.
Qed.

Lemma save_to_s3_put_fails (content : str) (encoded : bytes) (st : cloud) (e : exn) :
  encode_utf8 content = Ok encoded ->
  put_object S3_BUCKET s3_key_now encoded = Raise e ->
  save_to_s3 content st
  = (Raise e, {| objects := objects st;
                 calls := calls st ++ [store_call encoded] |}).
Proof.
  intros He Hp.
  unfold save_to_s3, try_except, bind, lift, ret, raise, s3_put_object.
  by rewrite He, Hp.
Qed.

Lemma save_to_s3_encode_fails (content : str) (st : cloud) (e : exn) :
  encode_utf8 content = Raise e ->
  save_to_s3 content st = (Raise e, st).
Proof.
  intros He. unfold save_to_s3, try_except, bind, lift, ret, raise.
  by rewrite He.
Qed.

Lemma save_to_s3_raises (content : str) (st st2 : cloud) (e : exn) :
  save_to_s3 content st = (Raise e, st2) ->
  objects st2 = objects st /\
  calls st2 = calls st ++
    match encode_utf8 content with
    | Ok encoded => [store_call encoded]
    | Raise _ => []
    end.
Proof.
  unfold save_to_s3, try_except, bind, lift, ret, raise, s3_put_object.
  destruct (encode_utf8 content) as [encoded|e1].
  - destruct (put_object _ _ _) as [u|e2]; [done|].
    by intros [= _ <-].
  - intros [= _ <-]. by rewrite app_nil_r.
Qed.

(** The handler once the request body has been decoded to an object. *)
Lemma lambda_handler_decoded (event d : list (str * pyval)) (st : cloud) :
  json_loads_value (event_body event) = Ok (PDict d) ->
  lambda_handler event st =
    let topic := match dict_lookup (lit "topic") d with
                 | Some v => v
                 | None => PNone
                 end in
    if truthy topic then
      match generate_blog topic st with
      | (Ok blog, st1) =>
          if negb (truthy (PStr blog)) || (length blog <? 100)%nat
          then (Ok generation_failed_response, st1)
          else
            match save_to_s3 blog st1 with
            | (Ok _, st2) => (Ok (success_response blog), st2)
            | (Raise _, st2) => (Ok internal_error_response, st2)
            end
      | (Raise _, st1) => (Ok internal_error_response, st1)
      end
    else (Ok missing_topic_response, st).
Proof.
  intros Hb. unfold lambda_handler, try_except, bind, lift, ret.
  rewrite Hb. cbn [py_get].
  destruct (truthy _); [|done]. cbn [negb].
  destruct (generate_blog _ st) as [[blog|e] st1]; [|done].
  destruct (negb (truthy (PStr blog)) || (length blog <? 100)%nat); [done|].
  by destruct (save_to_s3 blog st1) as [[p|e] st2].
Qed.

(** A text of a hundred characters or more passes the length check. *)
Lemma long_enough (blog : str) :
  (100 <= length blog)%nat ->
  negb (truthy (PStr blog)) || (length blog <? 100)%nat = false.
Proof.
  intros Hlen. apply Nat.ltb_ge in Hlen as Hlt. rewrite Hlt.
  destruct blog; [simpl in Hlen; lia|done].
Qed.

Lemma too_short (blog : str) :
  (length blog < 100)%nat ->
  negb (truthy (PStr blog)) || (length blog <? 100)%nat = true.
Proof.
  intros Hlen. apply Nat.ltb_lt in Hlen as ->. apply orb_true_r.
Qed.
End HandlerFacts.

(** ** The handler: what the specification states *)

Section HandlerClaims.
Context `{PyRuntime} `{Services}.

Lemma save_to_s3_calls (content : str) (st st2 : cloud) (r : result str) :
  save_to_s3 content st = (r, st2) -> exists rest, calls st2 = calls st ++ rest.
Proof.
  unfold save_to_s3, try_except, bind, lift, ret, raise, s3_put_object.
  destruct (encode_utf8 content) as [encoded|e1].
  - destruct (put_object _ _ _) as [u|e2]; intros [= _ <-]; by eexists.
  - intros [= _ <-]. exists []. by rewrite app_nil_r.
Qed.

(** Exactly one response for every request: the handler does not raise. *)
Lemma lambda_handler_responds (event : list (str * pyval)) (st : cloud) :
  exists (resp : response) (st' : cloud), lambda_handler event st = (Ok resp, st').
Proof.
  unfold lambda_handler, try_except.
  destruct (bind _ _ st) as [[resp|e] st']; by do 2 eexists.
Qed.

(** A body that decodes to something other than an object has no [get]:
    the outer handler answers 500. *)
Lemma non_object_body_internal_error
    (event : list (str * pyval)) (v : pyval) (st : cloud) :
  json_loads_value (event_body event) = Ok v ->
  (forall d, v <> PDict d) ->
  lambda_handler event st = (Ok internal_error_response, st).
Proof.
  intros Hb Hv. unfold lambda_handler, try_except, bind, lift, ret.
  rewrite Hb. destruct v; try done. by destruct (Hv d).
Qed.

(** C1, as amended: for every request with a valid body and a non-empty
    topic, if the sanitized generated text has at least 100 characters
    and the store write succeeds (the text encodes as UTF-8 and
    [put_object] returns), the handler returns statusCode 200 with the
    sanitized text itself as body, and the store holds, under the
    timestamped key, an artifact whose content is that text. *)
Theorem success_returns_text_and_persists
    (event d : list (str * pyval)) (topic : pyval) (blog : str)
    (encoded : bytes) (st st1 : cloud) :
  json_loads_value (event_body event) = Ok (PDict d) ->
  dict_lookup (lit "topic") d = Some topic -> truthy topic = true ->
  generate_blog topic st = (Ok blog, st1) -> (100 <= length blog)%nat ->
  encode_utf8 blog = Ok encoded ->
  put_object S3_BUCKET s3_key_now encoded = Ok tt ->
  exists st2 : cloud,
    lambda_handler event st = (Ok (success_response blog), st2) /\
    statusCode (success_response blog) = 200%Z /\
    body (success_response blog) = blog /\
    objects st2 !! (S3_BUCKET, s3_key_now) = Some encoded /\
    calls st2 = calls st ++ [generation_call topic; store_call encoded].
Proof.
  intros Hb Ht Htruthy Hg Hlen He Hp. eexists.
  rewrite (lambda_handler_decoded _ _ _ Hb), Ht. cbn zeta.
  rewrite Htruthy, Hg, (long_enough _ Hlen), (save_to_s3_ok _ _ _ He Hp).
  repeat split; cbn [objects calls].
  - apply lookup_insert_eq.
  - destruct (generate_blog_effects _ _ _ _ Hg) as [_ ->].
    by rewrite <- app_assoc.
Qed.

(** C2: for every request that reaches generation, if the sanitized
    generated text has fewer than 100 characters the handler returns
    statusCode 500 with the body
    [{"error": "Blog generation failed or returned empty content."}] and
    nothing is persisted: the bucket is as before and the only call made
    is the generation call.  This includes the empty text that stands for
    a failed generation call. *)
Theorem short_generation_fails
    (event d : list (str * pyval)) (topic : pyval) (st : cloud) :
  json_loads_value (event_body event) = Ok (PDict d) ->
  dict_lookup (lit "topic") d = Some topic -> truthy topic = true ->
  (forall (blog : str) (st1 : cloud),
      generate_blog topic st = (Ok blog, st1) -> (length blog < 100)%nat ->
      lambda_handler event st = (Ok generation_failed_response, st1) /\
      objects st1 = objects st /\
      calls st1 = calls st ++ [generation_call topic]) /\
  (forall e : exn,
      generation_answer topic = Raise e ->
      lambda_handler event st
      = (Ok generation_failed_response,
         {| objects := objects st;
            calls := calls st ++ [generation_call topic] |})) /\
  statusCode generation_failed_response = 500%Z /\
  body generation_failed_response
  = error_text (lit "Blog generation failed or returned empty content.").
Proof.
  intros Hb Ht Htruthy. split; [|split; [|done]].
  - intros blog st1 Hg Hlen.
    rewrite (lambda_handler_decoded _ _ _ Hb), Ht. cbn zeta.
    rewrite Htruthy, Hg, (too_short _ Hlen).
    split; [done|]. by apply (generate_blog_effects _ _ _ _ Hg).
  - intros e He.
    rewrite (lambda_handler_decoded _ _ _ Hb), Ht. cbn zeta.
    rewrite Htruthy.
    unfold generate_blog, try_except, bind, bedrock_invoke_model, lift, ret.
    unfold generation_answer in He. rewrite He. done.
Qed.

(** C3, as amended: for every request whose body decodes to an object in
    which the topic field is missing or empty, the handler returns
    statusCode 400 with the body
    [{"error": "Missing 'topic' in request body"}] and leaves the world as
    it is: neither generation nor persistence is invoked.  (A body that
    decodes to a list, a number, a string or null has no [get] and is
    answered 500.) *)
Theorem missing_topic_rejected
    (event d : list (str * pyval)) (st : cloud) :
  json_loads_value (event_body event) = Ok (PDict d) ->
  (dict_lookup (lit "topic") d = None \/
   exists v, dict_lookup (lit "topic") d = Some v /\ truthy v = false) ->
  lambda_handler event st = (Ok missing_topic_response, st) /\
  statusCode missing_topic_response = 400%Z /\
  body missing_topic_response = error_text (lit "Missing 'topic' in request body").
Proof.
  intros Hb Ht. split; [|done].
  rewrite (lambda_handler_decoded _ _ _ Hb).
  destruct Ht as [->|(v & -> & Hv)]; cbn zeta; [done|by rewrite Hv].
Qed.

(** C6: the generation step does not raise: it always returns a text,
    having made exactly the generation call.  When the call fails the
    text is empty, when the response cannot be decoded the text is empty,
    and a decoded response without the [generation] field is treated as
    the empty text. *)
Theorem generate_blog_never_raises (topic : pyval) (st : cloud) :
  let st1 := {| objects := objects st;
                calls := calls st ++ [generation_call topic] |} in
  (exists blog : str, generate_blog topic st = (Ok blog, st1)) /\
  (forall e : exn,
      generation_answer topic = Raise e ->
      generate_blog topic st = (Ok [], st1)) /\
  (forall (response_body : str) (e : exn),
      generation_answer topic = Ok response_body ->
      json_loads response_body = Raise e ->
      generate_blog topic st = (Ok [], st1)) /\
  (forall (response_body : str) (d : list (str * pyval)),
      generation_answer topic = Ok response_body ->
      json_loads response_body = Ok (PDict d) ->
      dict_lookup (lit "generation") d = None ->
      generate_blog topic st = (Ok (clean_llama_output []), st1) /\
      clean_llama_output [] = []).
Proof.
  cbn zeta. split; [apply generate_blog_outcome|].
  unfold generate_blog, generation_answer, try_except, bind,
    bedrock_invoke_model, lift, ret.
  fold (generation_call topic).
  split; [|split].
  - by intros e ->.
  - by intros rb e -> ->.
  - intros rb d -> ->. cbn [py_get]. by intros ->.
Qed.

(** C7: for every event whose body cannot be decoded, the handler
    returns statusCode 500, not 400, with the body
    [{"error": "Internal server error."}], and makes no call. *)
Theorem undecodable_body_internal_error
    (event : list (str * pyval)) (st : cloud) (e : exn) :
  json_loads_value (event_body event) = Raise e ->
  lambda_handler event st = (Ok internal_error_response, st) /\
  statusCode internal_error_response = 500%Z /\
  body internal_error_response = error_text (lit "Internal server error.").
Proof.
  intros Hb. split; [|done].
  unfold lambda_handler, try_except, bind, lift, ret. by rewrite Hb.
Qed.


(** C10: for every request whose topic is a non-empty string of
    whitespace characters only, the handler does not answer with the 400
    missing-topic response: it goes on to the generation step and makes
    the generation call with the prompt built from that topic. *)
Theorem whitespace_topic_accepted
    (event d : list (str * pyval)) (topic : str) (st : cloud) :
  json_loads_value (event_body event) = Ok (PDict d) ->
  dict_lookup (lit "topic") d = Some (PStr topic) ->
  topic <> [] -> forallb is_space topic = true ->
  exists (resp : response) (st' : cloud) (rest : list call),
    lambda_handler event st = (Ok resp, st') /\
    statusCode resp <> 400%Z /\
    calls st' = calls st ++
      InvokeModel MODEL_ID (lit "application/json") (lit "application/json")
        (json_dumps (generation_payload (build_prompt topic))) :: rest.
Proof.
  intros Hb Ht Hne _.
  rewrite (lambda_handler_decoded _ _ _ Hb), Ht. cbn zeta.
  assert (truthy (PStr topic) = true) as -> by by destruct topic.
  destruct (generate_blog_outcome (PStr topic) st) as [blog Hg].
  rewrite Hg.
  change (generation_call (PStr topic)) with
    (InvokeModel MODEL_ID (lit "application/json") (lit "application/json")
       (json_dumps (generation_payload (build_prompt topic)))).
  destruct (negb (truthy (PStr blog)) || (length blog <? 100)%nat).
  - eexists _, _, []. by repeat split.
  - destruct (save_to_s3 blog _) as [[p|e] st2] eqn:Hs;
      destruct (save_to_s3_calls _ _ _ _ Hs) as [rest Hr];
      eexists _, _, rest; (repeat split; [done|]);
      rewrite Hr; cbn [calls]; by rewrite <- app_assoc.
Qed.
End HandlerClaims.

(** ** The handler on concrete requests *)

Lemma success_returns_text_and_persists_witness :
  exists st2 : cloud,
    @lambda_handler Demo.runtime Demo.all_up (Demo.request (lit "cats")) Demo.empty_cloud
    = (Ok (success_response Demo.long_text), st2) /\
    statusCode (success_response Demo.long_text) = 200%Z /\
    body (success_response Demo.long_text) = Demo.long_text /\
    objects st2 !! (S3_BUCKET, @s3_key_now Demo.all_up) = Some Demo.long_text /\
    calls st2 = calls Demo.empty_cloud ++
      [@generation_call Demo.runtime Demo.cats; @store_call Demo.all_up Demo.long_text].
Proof.
  apply (@success_returns_text_and_persists Demo.runtime Demo.all_up
           (Demo.request (lit "cats")) [(lit "topic", Demo.cats)] Demo.cats
           Demo.long_text Demo.long_text Demo.empty_cloud
           {| objects := ∅; calls := [@generation_call Demo.runtime Demo.cats] |}).
  - vm_compute. reflexivity.
  - vm_compute. reflexivity.
  - reflexivity.
  - vm_compute. reflexivity.
  - apply Nat.leb_le. vm_compute. reflexivity.
  - vm_compute. reflexivity.
  - reflexivity.
Defined.

(** C1, the counterexample: the body is valid, the topic is [cats], the
    sanitized text has 129 characters, and the bucket cannot be reached: the
    handler answers 500 and the bucket stays empty. *)
Lemma success_needs_the_store :
  @json_loads_value Demo.runtime (event_body (Demo.request (lit "cats")))
  = Ok (PDict [(lit "topic", Demo.cats)]) /\
  fst (@generate_blog Demo.runtime Demo.store_down Demo.cats Demo.empty_cloud)
  = Ok Demo.long_text /\
  length Demo.long_text = 129%nat /\
  fst (@lambda_handler Demo.runtime Demo.store_down (Demo.request (lit "cats")) Demo.empty_cloud)
  = Ok (@internal_error_response Demo.runtime) /\
  statusCode (@internal_error_response Demo.runtime) = 500%Z /\
  objects (snd (@lambda_handler Demo.runtime Demo.store_down
                  (Demo.request (lit "cats")) Demo.empty_cloud)) = ∅.
Proof. vm_compute. repeat split; reflexivity. Qed.

Lemma short_generation_fails_witness :
  @lambda_handler Demo.runtime Demo.terse_model (Demo.request (lit "cats")) Demo.empty_cloud
  = (Ok (@generation_failed_response Demo.runtime),
     {| objects := ∅; calls := [@generation_call Demo.runtime Demo.cats] |}) /\
  @lambda_handler Demo.runtime Demo.model_down (Demo.request (lit "cats")) Demo.empty_cloud
  = (Ok (@generation_failed_response Demo.runtime),
     {| objects := ∅; calls := [@generation_call Demo.runtime Demo.cats] |}) /\
  body (@generation_failed_response Demo.runtime)
  = error_text (lit "Blog generation failed or returned empty content.").
Proof.
  assert (Hb : @json_loads_value Demo.runtime (event_body (Demo.request (lit "cats")))
               = Ok (PDict [(lit "topic", Demo.cats)])) by (vm_compute; reflexivity).
  assert (Ht : dict_lookup (lit "topic") [(lit "topic", Demo.cats)] = Some Demo.cats)
    by (vm_compute; reflexivity).
  assert (Hv : truthy Demo.cats = true) by reflexivity.
  split; [|split].
  - apply (proj1 (@short_generation_fails Demo.runtime Demo.terse_model
                    _ _ _ Demo.empty_cloud Hb Ht Hv) Demo.short_text).
    + vm_compute. reflexivity.
    + apply Nat.ltb_lt. vm_compute. reflexivity.
  - apply (proj1 (proj2 (@short_generation_fails Demo.runtime Demo.model_down
                    _ _ _ Demo.empty_cloud Hb Ht Hv))
             (ServiceError (lit "ReadTimeoutError"))).
    vm_compute. reflexivity.
  - apply (@short_generation_fails Demo.runtime Demo.terse_model
             _ _ _ Demo.empty_cloud Hb Ht Hv).
Defined.

(** C3, the counterexample: the body [[]] decodes, to the empty list, and
    holds no topic; [body.get] raises and the handler answers 500 with the
    internal-error body, not 400. *)
Lemma decoded_list_is_not_rejected_as_missing_topic :
  @json_loads_value (Fixture.runtime Fixture.documents)
    (event_body [(lit "body", PStr (lit "[]"))]) = Ok (PList []) /\
  fst (@lambda_handler (Fixture.runtime Fixture.documents) Demo.all_up
         [(lit "body", PStr (lit "[]"))] Demo.empty_cloud)
  = Ok (@internal_error_response (Fixture.runtime Fixture.documents)) /\
  statusCode (@internal_error_response (Fixture.runtime Fixture.documents)) = 500%Z /\
  statusCode (@internal_error_response (Fixture.runtime Fixture.documents)) <> 400%Z /\
  @internal_error_response (Fixture.runtime Fixture.documents)
  <> @missing_topic_response (Fixture.runtime Fixture.documents).
Proof. vm_compute. repeat split; discriminate. Qed.

Lemma missing_topic_rejected_witness :
  @lambda_handler Demo.runtime Demo.all_up (Demo.request []) Demo.empty_cloud
  = (Ok (@missing_topic_response Demo.runtime), Demo.empty_cloud) /\
  @lambda_handler Demo.runtime Demo.all_up [] Demo.empty_cloud
  = (Ok (@missing_topic_response Demo.runtime), Demo.empty_cloud) /\
  statusCode (@missing_topic_response Demo.runtime) = 400%Z /\
  body (@missing_topic_response Demo.runtime)
  = error_text (lit "Missing 'topic' in request body").
Proof.
  split; [|split].
  - apply (@missing_topic_rejected Demo.runtime Demo.all_up
             (Demo.request []) [(lit "topic", PStr [])] Demo.empty_cloud).
    + vm_compute. reflexivity.
    + right. exists (PStr []). split; vm_compute; reflexivity.
  - apply (@missing_topic_rejected Demo.runtime Demo.all_up
             [] [] Demo.empty_cloud).
    + vm_compute. reflexivity.
    + left. reflexivity.
  - apply (@missing_topic_rejected Demo.runtime Demo.all_up
             [] [] Demo.empty_cloud).
    + vm_compute. reflexivity.
    + left. reflexivity.
Defined.

Lemma generate_blog_never_raises_witness :
  @generate_blog Demo.runtime Demo.model_down Demo.cats Demo.empty_cloud
  = (Ok [], {| objects := ∅; calls := [@generation_call Demo.runtime Demo.cats] |}) /\
  @generate_blog Demo.runtime (Demo.services (Ok (lit "<html>502</html>")) (Ok tt))
    Demo.cats Demo.empty_cloud
  = (Ok [], {| objects := ∅; calls := [@generation_call Demo.runtime Demo.cats] |}) /\
  @generate_blog Demo.runtime Demo.silent_model Demo.cats Demo.empty_cloud
  = (Ok (clean_llama_output []),
     {| objects := ∅; calls := [@generation_call Demo.runtime Demo.cats] |}) /\
  clean_llama_output [] = [].
Proof.
  split; [|split].
  - apply (proj1 (proj2 (@generate_blog_never_raises Demo.runtime Demo.model_down
                           Demo.cats Demo.empty_cloud))
             (ServiceError (lit "ReadTimeoutError"))).
    vm_compute. reflexivity.
  - apply (proj1 (proj2 (proj2 (@generate_blog_never_raises Demo.runtime
                                  (Demo.services (Ok (lit "<html>502</html>")) (Ok tt))
                                  Demo.cats Demo.empty_cloud)))
             (lit "<html>502</html>") JSONDecodeError).
    + vm_compute. reflexivity.
    + vm_compute. reflexivity.
  - apply (proj2 (proj2 (proj2 (@generate_blog_never_raises Demo.runtime
                                  Demo.silent_model Demo.cats Demo.empty_cloud)))
             (lit "{}") []).
    + vm_compute. reflexivity.
    + vm_compute. reflexivity.
    + reflexivity.
Defined.

Lemma undecodable_body_internal_error_witness :
  @lambda_handler Demo.runtime Demo.all_up
    [(lit "body", PStr (lit "topic=cats"))] Demo.empty_cloud
  = (Ok (@internal_error_response Demo.runtime), Demo.empty_cloud) /\
  statusCode (@internal_error_response Demo.runtime) = 500%Z /\
  body (@internal_error_response Demo.runtime)
  = error_text (lit "Internal server error.").
Proof.
  apply (@undecodable_body_internal_error Demo.runtime Demo.all_up
           [(lit "body", PStr (lit "topic=cats"))] Demo.empty_cloud JSONDecodeError).
  vm_compute. reflexivity.
Defined.


Lemma whitespace_topic_accepted_witness :
  exists (resp : response) (st' : cloud) (rest : list call),
    @lambda_handler Demo.runtime Demo.all_up (Demo.request Demo.blanks) Demo.empty_cloud
    = (Ok resp, st') /\
    statusCode resp <> 400%Z /\
    calls st' = calls Demo.empty_cloud ++
      InvokeModel MODEL_ID (lit "application/json") (lit "application/json")
        (@json_dumps Demo.runtime (generation_payload (build_prompt Demo.blanks))) :: rest.
Proof.
  apply (@whitespace_topic_accepted Demo.runtime Demo.all_up
           (Demo.request Demo.blanks) [(lit "topic", PStr Demo.blanks)]
           Demo.blanks Demo.empty_cloud).
  - vm_compute. reflexivity.
  - vm_compute. reflexivity.
  - discriminate.
  - vm_compute. reflexivity.
Defined.

(** * Further properties of the module *)

(** ** The sanitizer *)

Lemma strip_fixed_iff (y : str) :
  strip y = y <-> head_ok y = true /\ head_ok (rev y) = true.
Proof.
  split.
  - intros Hy. rewrite <- Hy. split; [apply strip_head_ok|apply strip_last_ok].
  - intros [Hh Hl]. by apply strip_id.
Qed.

Lemma leading_three (s : str) :
  (3 <= leading_newlines s)%nat -> starts_with [NL; NL; NL] s = true.
Proof.
  destruct s as [|a [|b [|c r]]]; simpl; try lia;
    destruct (a =? NL) eqn:Ea; try lia;
    try (destruct (b =? NL) eqn:Eb; try lia);
    try (destruct (c =? NL) eqn:Ec; try lia).
  intros _. apply N.eqb_eq in Ea, Eb, Ec. by subst.
Qed.

Lemma no_triple_no_long_run (y : str) :
  contains [NL; NL; NL] y = false <-> no_long_run y.
Proof.
  split.
  - intros Hc i. pose proof (contains_false_drop _ _ i Hc) as Hs.
    destruct (Nat.lt_ge_cases (leading_newlines (drop i y)) 3) as [|Hge]; [done|].
    apply leading_three in Hge. congruence.
  - intros Hr. destruct (contains [NL; NL; NL] y) eqn:E; [|done].
    apply contains_true_at in E as (i & _ & Hs); [|done].
    specialize (Hr i). destruct (starts_with_prefix _ _ Hs) as [t Ht].
    rewrite Ht in Hr. simpl in Hr. lia.
Qed.

(** X1: the output of the sanitizer never begins or ends with a whitespace
    character: trimming it again changes nothing. *)
Theorem sanitizer_output_trimmed (x : str) :
  strip (clean_llama_output x) = clean_llama_output x /\
  head_ok (clean_llama_output x) = true /\
  head_ok (rev (clean_llama_output x)) = true.
Proof.
  split; [apply strip_id|split]; auto using clean_head_ok, clean_last_ok.
Qed.

(** X2: the sanitizer never lengthens a text, and it shortens every text
    in which a delimiter token occurs. *)
Theorem sanitizer_never_lengthens (x : str) :
  (length (clean_llama_output x) <= length x)%nat /\
  (has_delimiter x = true -> (length (clean_llama_output x) < length x)%nat).
Proof.
  split; [|apply clean_shrinks].
  pose proof (clean_length_le x) as Hle.
  pose proof (re_sub_from_length match_inst_tag O (re_sub match_s_tag [] x)) as H2.
  pose proof (re_sub_from_length match_s_tag O x) as H1.
  unfold re_sub in *. lia.
Qed.

Lemma sanitizer_never_lengthens_witness :
  has_delimiter (lit "<s>Hi</s>") = true /\
  (length (clean_llama_output (lit "<s>Hi</s>")) < length (lit "<s>Hi</s>"))%nat.
Proof.
  split; [reflexivity|].
  apply (proj2 (sanitizer_never_lengthens (lit "<s>Hi</s>"))). reflexivity.
Defined.

(** X3: the texts that the sanitizer returns unchanged are exactly the
    texts without a delimiter token, without whitespace at either end and
    without three consecutive newlines. *)
Theorem sanitizer_fixed_points (y : str) :
  clean_llama_output y = y <->
  has_delimiter y = false /\ strip y = y /\ contains [NL; NL; NL] y = false.
Proof.
  split.
  - intros Hy. split; [|split].
    + destruct (has_delimiter y) eqn:E; [|done].
      apply clean_shrinks in E. rewrite Hy in E. lia.
    + rewrite <- Hy. apply strip_id; [apply clean_head_ok|apply clean_last_ok].
    + apply no_triple_no_long_run. rewrite <- Hy. apply clean_no_long_run.
  - intros (Hd & Hs & Hn). apply strip_fixed_iff in Hs as [Hh Hl].
    apply clean_fixed_point; try done. by apply no_triple_no_long_run.
Qed.

Lemma sanitizer_fixed_points_witness :
  clean_llama_output (lit "A title" ++ [NL; NL] ++ lit "- a point")
  = lit "A title" ++ [NL; NL] ++ lit "- a point".
Proof.
  apply (proj2 (sanitizer_fixed_points _)). repeat split; vm_compute; reflexivity.
Defined.

Lemma contains_in_blank (tok s : str) (a : char) (t : str) :
  tok = a :: t -> is_space a = false ->
  forallb is_space s = true -> contains tok s = false.
Proof.
  intros -> Ha. induction s as [|b s IH]; intros Hs; [done|].
  simpl in Hs. apply andb_prop in Hs as [Hb Hs].
  change (contains (a :: t) (b :: s))
    with (starts_with (a :: t) (b :: s) || contains (a :: t) s).
  rewrite (IH Hs), orb_false_r. simpl.
  destruct (a =? b) eqn:E; [|done].
  apply N.eqb_eq in E as ->. congruence.
Qed.

Lemma lstrip_blank (s : str) : forallb is_space s = true -> lstrip s = [].
Proof.
  induction s as [|c s IH]; [done|]. simpl. intros Hs.
  apply andb_prop in Hs as [-> Hs]. by apply IH.
Qed.

(** X4: a text that consists of whitespace only, the empty text included,
    is sanitized to the empty text. *)
Theorem sanitizer_blank_input (x : str) :
  forallb is_space x = true -> clean_llama_output x = [].
Proof.
  intros Hx. unfold clean_llama_output.
  rewrite remove_s_tag_id, remove_inst_tag_id;
    try (by eapply contains_in_blank).
  unfold strip. by rewrite (lstrip_blank x Hx).
Qed.

Lemma sanitizer_blank_input_witness :
  clean_llama_output [32; NL; 9; NL; NL; NL; 160] = [].
Proof. apply sanitizer_blank_input. reflexivity. Defined.

Lemma visible_lstrip (s : str) :
  List.filter visible (lstrip s) = List.filter visible s.
Proof.
  induction s as [|c s IH]; [done|]. cbn [lstrip].
  destruct (is_space c) eqn:E; [|done].
  cbn [List.filter]. unfold visible at 2. by rewrite E.
Qed.

Lemma visible_strip (s : str) :
  List.filter visible (strip s) = List.filter visible s.
Proof.
  unfold strip, rstrip.
  by rewrite List.filter_rev, visible_lstrip, List.filter_rev, rev_involutive,
    visible_lstrip.
Qed.

Lemma visible_after_run (s : str) :
  List.filter visible (drop (leading_newlines s) s) = List.filter visible s.
Proof.
  induction s as [|c s IH]; [done|]. simpl.
  destruct (c =? NL) eqn:E; [|done].
  apply N.eqb_eq in E as ->. simpl. exact IH.
Qed.

Lemma visible_collapse (n : nat) :
  forall s : str, (length s <= n)%nat ->
    List.filter visible (collapse_newlines s) = List.filter visible s.
Proof.
  induction n as [|n IH]; intros s Hlen.
  - by destruct s; [|simpl in Hlen; lia].
  - destruct s as [|c r]; [done|]. rewrite collapse_cons.
    destruct (3 <=? leading_newlines (c :: r))%nat eqn:E.
    + apply Nat.leb_le in E.
      rewrite List.filter_app, IH, visible_after_run; [done|].
      rewrite length_drop. cbn [length] in *. lia.
    + simpl in Hlen |- *. rewrite IH by lia. done.
Qed.

(** X5: after the delimiter tokens are removed the sanitizer deletes
    whitespace only: the visible characters of the output are those of the
    text without its tokens, in the same order; on a text without tokens
    they are those of the input. *)
Theorem sanitizer_keeps_visible_characters (x : str) :
  List.filter visible (clean_llama_output x)
  = List.filter visible (remove_tokens x) /\
  (has_delimiter x = false ->
   List.filter visible (clean_llama_output x) = List.filter visible x).
Proof.
  assert (H1 : List.filter visible (clean_llama_output x)
               = List.filter visible (remove_tokens x)).
  { unfold clean_llama_output. fold (remove_tokens x).
    by rewrite (visible_collapse _ _ (Nat.le_refl _)), visible_strip. }
  split; [done|]. intros Hd. rewrite H1. f_equal.
  unfold has_delimiter in Hd.
  apply orb_false_elim in Hd as [Hd H4].
  apply orb_false_elim in Hd as [Hd H3].
  apply orb_false_elim in Hd as [Hd1 Hd2].
  unfold remove_tokens. by rewrite remove_s_tag_id, remove_inst_tag_id.
Qed.

Lemma sanitizer_keeps_visible_characters_witness :
  has_delimiter ([32] ++ lit "a b" ++ [NL; NL; NL; NL] ++ lit "c" ++ [NL]) = false /\
  List.filter visible
    (clean_llama_output ([32] ++ lit "a b" ++ [NL; NL; NL; NL] ++ lit "c" ++ [NL]))
  = List.filter visible ([32] ++ lit "a b" ++ [NL; NL; NL; NL] ++ lit "c" ++ [NL]).
Proof.
  split; [reflexivity|].
  apply (proj2 (sanitizer_keeps_visible_characters _)). reflexivity.
Defined.

(** ** The prompt *)

(** X6: whatever the topic, the prompt begins with the opening markers
    [<s>[INST]], ends with the closing marker [[/INST]], has no whitespace
    at either end, and is as long as the topic plus the 322 characters of
    the fixed instructions. *)
Theorem prompt_frame (topic : str) :
  starts_with (lit "<s>[INST]") (build_prompt topic) = true /\
  starts_with (rev (lit "[/INST]")) (rev (build_prompt topic)) = true /\
  strip (build_prompt topic) = build_prompt topic /\
  length (build_prompt topic) = (length topic + 322)%nat.
Proof.
  rewrite build_prompt_eq. split; [done|]. split; [|split].
  - rewrite !rev_app_distr. done.
  - apply strip_id; [done|]. rewrite !rev_app_distr. done.
  - rewrite !length_app.
    change (length prompt_head) with 125%nat.
    change (length prompt_tail) with 197%nat. lia.
Qed.

(** X7: different topics give different prompts. *)
Theorem build_prompt_injective (t1 t2 : str) :
  build_prompt t1 = build_prompt t2 -> t1 = t2.
Proof.
  rewrite !build_prompt_eq. intros Heq.
  apply app_inv_head in Heq. by apply app_inv_tail in Heq.
Qed.

Lemma build_prompt_injective_witness : lit "tea" = [116; 101; 97].
Proof. apply build_prompt_injective. reflexivity. Defined.

(** ** The generation step *)

Section GenerationFacts.
Context `{PyRuntime} `{Services}.

Lemma generate_blog_sanitized (topic : pyval) (st st1 : cloud) (r : result str) :
  generate_blog topic st = (r, st1) ->
  exists raw : str, r = Ok (clean_llama_output raw).
Proof.
  unfold generate_blog, try_except, bind, bedrock_invoke_model, lift, ret.
  fold (generation_call topic).
  destruct (invoke_model _ _ _ _) as [rb|e]; [|intros [= <- _]; by exists []].
  destruct (json_loads rb) as [j|e]; [|intros [= <- _]; by exists []].
  destruct (py_get j _ _) as [v|e]; [|intros [= <- _]; by exists []].
  destruct (expect_str v) as [s|e]; intros [= <- _]; [by exists s|by exists []].
Qed.

(** X8: when the model answers with an object whose [generation] field is
    a text, [generate_blog] returns that text sanitized. *)
Theorem generate_blog_returns_clean_text
    (topic : pyval) (st : cloud) (response_body raw : str)
    (d : list (str * pyval)) :
  generation_answer topic = Ok response_body ->
  json_loads response_body = Ok (PDict d) ->
  dict_lookup (lit "generation") d = Some (PStr raw) ->
  generate_blog topic st
  = (Ok (clean_llama_output raw),
     {| objects := objects st; calls := calls st ++ [generation_call topic] |}).
Proof.
  unfold generate_blog, generation_answer, try_except, bind,
    bedrock_invoke_model, lift, ret.
  fold (generation_call topic).
  intros -> ->. cbn [py_get]. by intros ->.
Qed.

(** X9: an answer of the model that is no object, or whose [generation]
    field is no text (null, a number, a list), makes [generate_blog]
    return the empty text: the [AttributeError] or [TypeError] is
    swallowed like a failed call. *)
Theorem generate_blog_malformed_answer
    (topic : pyval) (st : cloud) (response_body : str) (v : pyval) :
  generation_answer topic = Ok response_body ->
  json_loads response_body = Ok v ->
  (forall d, v <> PDict d) \/
  (exists d g, v = PDict d /\ dict_lookup (lit "generation") d = Some g /\
               forall s, g <> PStr s) ->
  generate_blog topic st
  = (Ok [], {| objects := objects st;
               calls := calls st ++ [generation_call topic] |}).
Proof.
  unfold generate_blog, generation_answer, try_except, bind,
    bedrock_invoke_model, lift, ret.
  fold (generation_call topic).
  intros -> -> [Hv|(d & g & -> & Hg & Hs)].
  - destruct v; try done. by destruct (Hv d).
  - cbn [py_get]. rewrite Hg. destruct g; try done. by destruct (Hs s).
Qed.

(** X10: whatever the model answers, the text that [generate_blog] returns
    is sanitized: it has no whitespace at either end and no three
    consecutive newlines; and the bucket is not touched. *)
Theorem generate_blog_result_sanitized
    (topic : pyval) (st st1 : cloud) (blog : str) :
  generate_blog topic st = (Ok blog, st1) ->
  strip blog = blog /\ contains [NL; NL; NL] blog = false /\
  objects st1 = objects st.
Proof.
  intros Hg. destruct (generate_blog_sanitized _ _ _ _ Hg) as [raw [= ->]].
  split; [|split].
  - apply strip_id; [apply clean_head_ok|apply clean_last_ok].
  - apply no_triple_no_long_run, clean_no_long_run.
  - by apply (generate_blog_effects _ _ _ _ Hg).
Qed.
End GenerationFacts.


Lemma generate_blog_returns_clean_text_witness :
  @generate_blog Demo.runtime Demo.all_up Demo.cats Demo.empty_cloud
  = (Ok (clean_llama_output Demo.long_text),
     {| objects := objects Demo.empty_cloud;
        calls := calls Demo.empty_cloud ++ [@generation_call Demo.runtime Demo.cats] |}).
Proof.
  apply (@generate_blog_returns_clean_text Demo.runtime Demo.all_up Demo.cats
           Demo.empty_cloud (Demo.generation_body Demo.long_text) Demo.long_text
           [(lit "generation", PStr Demo.long_text)]);
    vm_compute; reflexivity.
Defined.

Lemma generate_blog_malformed_answer_witness :
  @generate_blog (Fixture.runtime Fixture.documents)
    (Demo.services (Ok Fixture.null_generation) (Ok tt)) Demo.cats Demo.empty_cloud
  = (Ok [], {| objects := objects Demo.empty_cloud;
               calls := calls Demo.empty_cloud
                        ++ [@generation_call (Fixture.runtime Fixture.documents) Demo.cats] |})
  /\
  @generate_blog (Fixture.runtime Fixture.documents)
    (Demo.services (Ok (lit "[]")) (Ok tt)) Demo.cats Demo.empty_cloud
  = (Ok [], {| objects := objects Demo.empty_cloud;
               calls := calls Demo.empty_cloud
                        ++ [@generation_call (Fixture.runtime Fixture.documents) Demo.cats] |}).
Proof.
  split.
  - apply (@generate_blog_malformed_answer (Fixture.runtime Fixture.documents)
             (Demo.services (Ok Fixture.null_generation) (Ok tt)) Demo.cats
             Demo.empty_cloud Fixture.null_generation
             (PDict [(lit "generation", PNone)])).
    + vm_compute. reflexivity.
    + vm_compute. reflexivity.
    + right. exists [(lit "generation", PNone)], PNone.
      split; [reflexivity|]. split; [vm_compute; reflexivity|discriminate].
  - apply (@generate_blog_malformed_answer (Fixture.runtime Fixture.documents)
             (Demo.services (Ok (lit "[]")) (Ok tt)) Demo.cats
             Demo.empty_cloud (lit "[]") (PList [])).
    + vm_compute. reflexivity.
    + vm_compute. reflexivity.
    + left. discriminate.
Defined.

Lemma generate_blog_result_sanitized_witness :
  strip Demo.long_text = Demo.long_text /\
  contains [NL; NL; NL] Demo.long_text = false /\
  objects {| objects := ∅; calls := [@generation_call Demo.runtime Demo.cats] |}
  = objects Demo.empty_cloud.
Proof.
  apply (@generate_blog_result_sanitized Demo.runtime Demo.all_up Demo.cats
           Demo.empty_cloud
           {| objects := ∅; calls := [@generation_call Demo.runtime Demo.cats] |}
           Demo.long_text).
  vm_compute. reflexivity.
Defined.

(** ** The key of the artifact *)

Lemma all_from_spec (n : nat) (i : N) (f : N -> bool) :
  all_from n i f = true ->
  forall x : N, i <= x < i + N.of_nat n -> f x = true.
Proof.
  revert i. induction n as [|n IH]; intros i Ha x Hx; [lia|].
  simpl in Ha. apply andb_prop in Ha as [Hi Ha].
  destruct (N.eq_dec x i) as [->|Hne]; [done|].
  apply (IH (N.succ i)); [done|lia].
Qed.

Lemma zero_pad_two (n : N) : n < 100 -> padded_ok 2 n = true.
Proof.
  assert (all_from (N.to_nat 100) 0 (padded_ok 2) = true) as Hall
    by (vm_compute; reflexivity).
  intros Hn. apply (all_from_spec _ _ _ Hall). rewrite N2Nat.id. lia.
Qed.

Lemma zero_pad_four (n : N) : n < 10000 -> padded_ok 4 n = true.
Proof.
  assert (all_from (N.to_nat 10000) 0 (padded_ok 4) = true) as Hall
    by (vm_compute; reflexivity).
  intros Hn. apply (all_from_spec _ _ _ Hall). rewrite N2Nat.id. lia.
Qed.

Lemma padded_ok_spec (width : nat) (n : N) :
  padded_ok width n = true ->
  length (zero_pad width n) = width /\
  read_decimal (zero_pad width n) = n /\
  forallb digit (zero_pad width n) = true.
Proof.
  unfold padded_ok. intros Hp.
  apply andb_prop in Hp as [Hp Hd]. apply andb_prop in Hp as [Hl Hr].
  apply Nat.eqb_eq in Hl. apply N.eqb_eq in Hr. done.
Qed.

Lemma padded_inj (width : nat) (n m : N) :
  padded_ok width n = true -> padded_ok width m = true ->
  zero_pad width n = zero_pad width m -> n = m.
Proof.
  intros Hn Hm Heq.
  apply padded_ok_spec in Hn as (_ & Hn & _).
  apply padded_ok_spec in Hm as (_ & Hm & _).
  rewrite <- Hn, <- Hm. by rewrite Heq.
Qed.

Lemma clock_fields (t : datetime) :
  clock_in_range t = true ->
  padded_ok 4 (year t) = true /\ padded_ok 2 (month t) = true /\
  padded_ok 2 (day t) = true /\ padded_ok 2 (hour t) = true /\
  padded_ok 2 (minute t) = true /\ padded_ok 2 (second t) = true.
Proof.
  unfold clock_in_range. intros Hc.
  repeat (apply andb_prop in Hc as [Hc ?]).
  repeat match goal with
         | H : (_ <=? _) = true |- _ => apply N.leb_le in H
         end.
  repeat split; (apply zero_pad_four || apply zero_pad_two); lia.
Qed.

Lemma strftime_parts (t : datetime) :
  strftime t
  = zero_pad 4 (year t) ++ [95] ++ zero_pad 2 (month t) ++ [95]
    ++ zero_pad 2 (day t) ++ [95]
    ++ zero_pad 2 (hour t) ++ zero_pad 2 (minute t) ++ zero_pad 2 (second t).
Proof. reflexivity. Qed.

Lemma forallb_weaken (f g : char -> bool) (s : str) :
  (forall c, f c = true -> g c = true) ->
  forallb f s = true -> forallb g s = true.
Proof.
  intros Hfg. induction s as [|c s IH]; [done|]. simpl. intros Hs.
  apply andb_prop in Hs as [Hc Hs]. by rewrite (Hfg c Hc), IH.
Qed.

(** X11: when the clock is in range (four-digit year), the timestamp is 17
    characters of digits and underscores, and the key is the 33 characters
    [blog_output/], the timestamp and [.txt]. *)
Theorem s3_key_shape (t : datetime) :
  clock_in_range t = true ->
  length (strftime t) = 17%nat /\
  forallb (fun c => digit c || (c =? 95)) (strftime t) = true /\
  s3_key_at t = lit "blog_output/" ++ strftime t ++ lit ".txt" /\
  length (s3_key_at t) = 33%nat.
Proof.
  intros Hc.
  destruct (clock_fields t Hc) as (Hy & Hm & Hd & Hh & Hmi & Hs).
  apply padded_ok_spec in Hy as (Ly & _ & Dy).
  apply padded_ok_spec in Hm as (Lm & _ & Dm).
  apply padded_ok_spec in Hd as (Ld & _ & Dd).
  apply padded_ok_spec in Hh as (Lh & _ & Dh).
  apply padded_ok_spec in Hmi as (Lmi & _ & Dmi).
  apply padded_ok_spec in Hs as (Ls & _ & Ds).
  assert (Hlen : length (strftime t) = 17%nat).
  { rewrite strftime_parts, !length_app, Ly, Lm, Ld, Lh, Lmi, Ls. done. }
  assert (Hw : forall s, forallb digit s = true ->
                         forallb (fun c => digit c || (c =? 95)) s = true).
  { intros s. apply forallb_weaken. by intros c ->. }
  split; [done|]. split; [|split; [done|]].
  - rewrite strftime_parts, !forallb_app.
    rewrite (Hw _ Dy), (Hw _ Dm), (Hw _ Dd), (Hw _ Dh), (Hw _ Dmi), (Hw _ Ds).
    done.
  - unfold s3_key_at. rewrite !length_app, Hlen. done.
Qed.

Lemma s3_key_shape_witness :
  length (strftime Demo.noon) = 17%nat /\
  forallb (fun c => digit c || (c =? 95)) (strftime Demo.noon) = true /\
  s3_key_at Demo.noon = lit "blog_output/" ++ strftime Demo.noon ++ lit ".txt" /\
  length (s3_key_at Demo.noon) = 33%nat.
Proof. apply s3_key_shape. reflexivity. Defined.

(** X12: the key identifies the second: two clock readings in range give
    the same key only if they are the same reading. *)
Theorem s3_key_injective (t1 t2 : datetime) :
  clock_in_range t1 = true -> clock_in_range t2 = true ->
  s3_key_at t1 = s3_key_at t2 -> t1 = t2.
Proof.
  intros H1 H2 Hk.
  destruct (clock_fields t1 H1) as (Hy1 & Hm1 & Hd1 & Hh1 & Hmi1 & Hs1).
  destruct (clock_fields t2 H2) as (Hy2 & Hm2 & Hd2 & Hh2 & Hmi2 & Hs2).
  unfold s3_key_at in Hk. apply app_inv_head in Hk. apply app_inv_head in Hk.
  apply app_inv_tail in Hk. rewrite !strftime_parts in Hk.
  pose proof (padded_ok_spec _ _ Hy1) as (Ly1 & _). pose proof (padded_ok_spec _ _ Hy2) as (Ly2 & _).
  pose proof (padded_ok_spec _ _ Hm1) as (Lm1 & _). pose proof (padded_ok_spec _ _ Hm2) as (Lm2 & _).
  pose proof (padded_ok_spec _ _ Hd1) as (Ld1 & _). pose proof (padded_ok_spec _ _ Hd2) as (Ld2 & _).
  pose proof (padded_ok_spec _ _ Hh1) as (Lh1 & _). pose proof (padded_ok_spec _ _ Hh2) as (Lh2 & _).
  pose proof (padded_ok_spec _ _ Hmi1) as (Lmi1 & _). pose proof (padded_ok_spec _ _ Hmi2) as (Lmi2 & _).
  apply app_inj_1 in Hk as [Ey Hk]; [|congruence].
  apply app_inj_1 in Hk as [_ Hk]; [|done].
  apply app_inj_1 in Hk as [Em Hk]; [|congruence].
  apply app_inj_1 in Hk as [_ Hk]; [|done].
  apply app_inj_1 in Hk as [Ed Hk]; [|congruence].
  apply app_inj_1 in Hk as [_ Hk]; [|done].
  apply app_inj_1 in Hk as [Eh Hk]; [|congruence].
  apply app_inj_1 in Hk as [Emi Es]; [|congruence].
  apply (padded_inj _ _ _ Hy1 Hy2) in Ey.
  apply (padded_inj _ _ _ Hm1 Hm2) in Em.
  apply (padded_inj _ _ _ Hd1 Hd2) in Ed.
  apply (padded_inj _ _ _ Hh1 Hh2) in Eh.
  apply (padded_inj _ _ _ Hmi1 Hmi2) in Emi.
  apply (padded_inj _ _ _ Hs1 Hs2) in Es.
  destruct t1, t2. simpl in *. by subst.
Qed.

Lemma s3_key_injective_witness :
  Demo.noon
  = {| year := 2024; month := 5; day := 17; hour := 12; minute := 0; second := 9 |}.
Proof. apply s3_key_injective; reflexivity. Defined.

(** ** The store *)

Section StoreFacts.
Context `{Services}.

Lemma save_to_s3_inv_ok (content path : str) (st st' : cloud) :
  save_to_s3 content st = (Ok path, st') ->
  exists encoded : bytes,
    encode_utf8 content = Ok encoded /\
    put_object S3_BUCKET s3_key_now encoded = Ok tt /\
    path = lit "s3://" ++ S3_BUCKET ++ lit "/" ++ s3_key_now /\
    st' = {| objects := <[(S3_BUCKET, s3_key_now) := encoded]> (objects st);
             calls := calls st ++ [store_call encoded] |}.
Proof.
  unfold save_to_s3, try_except, bind, lift, ret, raise, s3_put_object.
  fold (lit "s3://" ++ S3_BUCKET ++ lit "/" ++ s3_key_now).
  generalize (lit "s3://" ++ S3_BUCKET ++ lit "/" ++ s3_key_now). intros location.
  destruct (encode_utf8 content) as [encoded|e1]; [|done].
  destruct (put_object _ _ _) as [[]|e2] eqn:Hp; [|done].
  intros [= <- <-]. by exists encoded.
Qed.

(** X13: when [save_to_s3] returns, it returns the location
    [s3://aws-bedrock-stuffs/<key>] of the object it wrote; the bucket
    holds the UTF-8 encoding of the content under that key, and every other
    object is as before. *)
Theorem save_to_s3_writes_one_object (content path : str) (st st' : cloud) :
  save_to_s3 content st = (Ok path, st') ->
  path = lit "s3://aws-bedrock-stuffs/" ++ s3_key_at datetime_now /\
  exists encoded : bytes,
    encode_utf8 content = Ok encoded /\
    objects st' !! (S3_BUCKET, s3_key_at datetime_now) = Some encoded /\
    (forall k, k <> (S3_BUCKET, s3_key_at datetime_now) ->
               objects st' !! k = objects st !! k) /\
    calls st' = calls st ++ [PutObject S3_BUCKET (s3_key_at datetime_now) encoded].
Proof.
  intros Hs. apply save_to_s3_inv_ok in Hs as (encoded & He & _ & -> & ->).
  split; [done|]. exists encoded. split; [done|]. cbn [objects calls].
  change s3_key_now with (s3_key_at datetime_now).
  split; [apply lookup_insert_eq|]. split; [|done].
  intros k Hk. by apply lookup_insert_ne.
Qed.

(** X14: two saves under the same clock reading use the same key: the
    second content replaces the first, and the bucket is as if only the
    second had been saved. *)
Theorem save_to_s3_overwrites
    (c1 c2 p1 p2 : str) (st st1 st2 : cloud) :
  save_to_s3 c1 st = (Ok p1, st1) ->
  save_to_s3 c2 st1 = (Ok p2, st2) ->
  p1 = p2 /\
  exists encoded : bytes,
    encode_utf8 c2 = Ok encoded /\
    objects st2 = <[(S3_BUCKET, s3_key_at datetime_now) := encoded]> (objects st).
Proof.
  intros H1 H2.
  apply save_to_s3_inv_ok in H1 as (e1 & _ & _ & -> & ->).
  apply save_to_s3_inv_ok in H2 as (e2 & He2 & _ & -> & ->).
  split; [done|]. exists e2. split; [done|]. cbn [objects].
  change s3_key_now with (s3_key_at datetime_now).
  apply insert_insert_eq.
Qed.

(** X15: when [save_to_s3] raises, it raises the exception of the step
    that failed, the encoding or the write, and the bucket is as before. *)
Theorem save_to_s3_reraises (content : str) (st st' : cloud) (e : exn) :
  save_to_s3 content st = (Raise e, st') ->
  objects st' = objects st /\
  (encode_utf8 content = Raise e \/
   exists encoded : bytes,
     encode_utf8 content = Ok encoded /\
     put_object S3_BUCKET (s3_key_at datetime_now) encoded = Raise e).
Proof.
  change (s3_key_at datetime_now) with s3_key_now.
  unfold save_to_s3, try_except, bind, lift, ret, raise, s3_put_object.
  generalize (lit "s3://" ++ S3_BUCKET ++ lit "/" ++ s3_key_now). intros location.
  destruct (encode_utf8 content) as [encoded|e1].
  - destruct (put_object _ _ _) as [u|e2] eqn:Hp; [done|].
    intros [= <- <-]. split; [done|]. right. by exists encoded.
  - intros [= <- <-]. split; [done|]. by left.
Qed.
End StoreFacts.

Lemma save_to_s3_writes_one_object_witness :
  lit "s3://aws-bedrock-stuffs/blog_output/2024_05_17_120009.txt"
  = lit "s3://aws-bedrock-stuffs/" ++ s3_key_at (@datetime_now Demo.all_up).
Proof.
  refine (proj1 (@save_to_s3_writes_one_object Demo.all_up (lit "hello")
                  (lit "s3://aws-bedrock-stuffs/blog_output/2024_05_17_120009.txt")
                  Demo.empty_cloud
                  {| objects := <[(S3_BUCKET, @s3_key_now Demo.all_up) := lit "hello"]> ∅;
                     calls := [@store_call Demo.all_up (lit "hello")] |} _)).
  erewrite (@save_to_s3_ok Demo.all_up (lit "hello") (lit "hello"));
    [reflexivity|vm_compute; reflexivity|vm_compute; reflexivity].
Defined.

Lemma save_to_s3_overwrites_witness :
  exists encoded : bytes,
    encode_utf8 (lit "second") = Ok encoded /\
    <[(S3_BUCKET, @s3_key_now Demo.all_up) := lit "second"]>
      (<[(S3_BUCKET, @s3_key_now Demo.all_up) := lit "first"]> ∅)
    = <[(S3_BUCKET, s3_key_at (@datetime_now Demo.all_up)) := encoded]>
        (objects Demo.empty_cloud).
Proof.
  refine (proj2 (@save_to_s3_overwrites Demo.all_up (lit "first") (lit "second")
                  (lit "s3://aws-bedrock-stuffs/blog_output/2024_05_17_120009.txt")
                  (lit "s3://aws-bedrock-stuffs/blog_output/2024_05_17_120009.txt")
                  Demo.empty_cloud
                  {| objects := <[(S3_BUCKET, @s3_key_now Demo.all_up) := lit "first"]> ∅;
                     calls := [@store_call Demo.all_up (lit "first")] |}
                  {| objects :=
                       <[(S3_BUCKET, @s3_key_now Demo.all_up) := lit "second"]>
                         (<[(S3_BUCKET, @s3_key_now Demo.all_up) := lit "first"]> ∅);
                     calls := [@store_call Demo.all_up (lit "first");
                               @store_call Demo.all_up (lit "second")] |} _ _)).
  - erewrite (@save_to_s3_ok Demo.all_up (lit "first") (lit "first"));
      [reflexivity|vm_compute; reflexivity|vm_compute; reflexivity].
  - erewrite (@save_to_s3_ok Demo.all_up (lit "second") (lit "second"));
      [reflexivity|vm_compute; reflexivity|vm_compute; reflexivity].
Defined.

Lemma save_to_s3_reraises_witness :
  (∅ : gmap (list N * list N) (list N)) = objects Demo.empty_cloud /\
  (encode_utf8 (lit "hello") = Raise (ServiceError (lit "EndpointConnectionError")) \/
   exists encoded : bytes,
     encode_utf8 (lit "hello") = Ok encoded /\
     @put_object Demo.store_down S3_BUCKET (s3_key_at (@datetime_now Demo.store_down)) encoded
     = Raise (ServiceError (lit "EndpointConnectionError"))).
Proof.
  apply (@save_to_s3_reraises Demo.store_down (lit "hello") Demo.empty_cloud
           {| objects := ∅; calls := [@store_call Demo.store_down (lit "hello")] |}
           (ServiceError (lit "EndpointConnectionError"))).
  vm_compute. reflexivity.
Defined.

(** ** The handler as a whole *)

Lemma classic_dict (v : pyval) :
  (exists d, v = PDict d) \/ (forall d, v <> PDict d).
Proof. destruct v; try (by right); left; by eexists. Qed.

Section HandlerPaths.
Context `{PyRuntime} `{Services}.

Lemma short_iff (blog : str) :
  negb (truthy (PStr blog)) || (length blog <? 100)%nat = true
  <-> (length blog < 100)%nat.
Proof.
  split; [|apply too_short].
  intros Hs. destruct (Nat.lt_ge_cases (length blog) 100) as [|Hge]; [done|].
  rewrite (long_enough _ Hge) in Hs. done.
Qed.

(** The five ways through the handler. *)
Lemma lambda_handler_paths (event : list (str * pyval)) (st : cloud) :
  exists (resp : response) (st' : cloud),
    lambda_handler event st = (Ok resp, st') /\
    ((resp = internal_error_response /\ st' = st /\
      forall d, json_loads_value (event_body event) <> Ok (PDict d))
     \/
     (exists d, json_loads_value (event_body event) = Ok (PDict d) /\
                truthy (topic_of d) = false /\
                resp = missing_topic_response /\ st' = st)
     \/
     (exists d blog,
         json_loads_value (event_body event) = Ok (PDict d) /\
         truthy (topic_of d) = true /\
         generate_blog (topic_of d) st = (Ok blog, st') /\
         (length blog < 100)%nat /\ resp = generation_failed_response)
     \/
     (exists d blog st1 path,
         json_loads_value (event_body event) = Ok (PDict d) /\
         truthy (topic_of d) = true /\
         generate_blog (topic_of d) st = (Ok blog, st1) /\
         (100 <= length blog)%nat /\
         save_to_s3 blog st1 = (Ok path, st') /\ resp = success_response blog)
     \/
     (exists d blog st1 e,
         json_loads_value (event_body event) = Ok (PDict d) /\
         truthy (topic_of d) = true /\
         generate_blog (topic_of d) st = (Ok blog, st1) /\
         (100 <= length blog)%nat /\
         save_to_s3 blog st1 = (Raise e, st') /\ resp = internal_error_response)).
Proof.
  destruct (json_loads_value (event_body event)) as [v|e] eqn:Hb.
  - destruct (classic_dict v) as [[d ->]|Hv].
    + rewrite (lambda_handler_decoded _ _ _ Hb). cbn zeta.
      fold (topic_of d).
      destruct (truthy (topic_of d)) eqn:Ht.
      * destruct (generate_blog_outcome (topic_of d) st) as [blog Hg].
        rewrite Hg.
        destruct (negb (truthy (PStr blog)) || (length blog <? 100)%nat) eqn:Hs.
        -- apply short_iff in Hs. eexists _, _. split; [done|].
           do 2 right. left. by exists d, blog.
        -- assert (100 <= length blog)%nat as Hlen.
           { destruct (Nat.lt_ge_cases (length blog) 100) as [Hlt|]; [|done].
             apply short_iff in Hlt. congruence. }
           destruct (save_to_s3 blog _) as [[path|e] st2] eqn:Hsave.
           ++ eexists _, _. split; [done|]. do 3 right. left.
              by eexists d, blog, _, path.
           ++ eexists _, _. split; [done|]. do 4 right.
              by eexists d, blog, _, e.
      * eexists _, _. split; [done|]. right. left. by exists d.
    + rewrite (non_object_body_internal_error _ _ _ Hb Hv).
      eexists _, _. split; [done|]. left. repeat split. congruence.
  - unfold lambda_handler, try_except, bind, lift, ret. rewrite Hb.
    eexists _, _. split; [done|]. left. repeat split. congruence.
Qed.
End HandlerPaths.

Section HandlerMore.
Context `{PyRuntime} `{Services}.

(** X16: every invocation returns a response, never an exception; its
    statusCode is 200, 400 or 500, its headers allow every origin, every
    response other than the 400 one also allows the [Content-Type] header,
    and every response other than the 200 one has a JSON error body. *)
Theorem handler_response_shape (event : list (str * pyval)) (st : cloud) :
  exists (resp : response) (st' : cloud),
    lambda_handler event st = (Ok resp, st') /\
    (statusCode resp = 200 \/ statusCode resp = 400 \/ statusCode resp = 500)%Z /\
    In allow_origin (headers resp) /\
    (statusCode resp = 400%Z \/ In allow_headers (headers resp)) /\
    (statusCode resp = 200%Z \/ exists message, body resp = error_body message).
Proof.
  destruct (lambda_handler_paths event st) as (resp & st' & Hh & Hp).
  exists resp, st'. split; [done|].
  destruct Hp as [(-> & _)|[(d & _ & _ & -> & _)|[(d & blog & _ & _ & _ & _ & ->)
    |[(d & blog & st1 & path & _ & _ & _ & _ & _ & ->)
     |(d & blog & st1 & e & _ & _ & _ & _ & _ & ->)]]]];
    cbn [statusCode headers body internal_error_response missing_topic_response
           generation_failed_response success_response In];
    repeat split; eauto 6.
Qed.

(** X17: the handler makes no call, or the generation call alone, or the
    generation call followed by one store call, and it leaves every object
    of the bucket other than the one under the current key as it was. *)
Theorem handler_effects (event : list (str * pyval)) (st : cloud) :
  let st' := snd (lambda_handler event st) in
  (calls st' = calls st \/
   (exists topic, calls st' = calls st ++ [generation_call topic]) \/
   (exists topic encoded,
       calls st' = calls st ++ [generation_call topic; store_call encoded])) /\
  (forall k, k <> (S3_BUCKET, s3_key_now) -> objects st' !! k = objects st !! k).
Proof.
  cbn zeta.
  destruct (lambda_handler_paths event st) as (resp & st' & Hh & Hp).
  rewrite Hh. cbn [snd].
  destruct Hp as [(_ & -> & _)|[(d & _ & _ & _ & ->)|[(d & blog & _ & _ & Hg & _)
    |[(d & blog & st1 & path & _ & _ & Hg & _ & Hs & _)
     |(d & blog & st1 & e & _ & _ & Hg & _ & Hs & _)]]]].
  - by split; [left|].
  - by split; [left|].
  - destruct (generate_blog_effects _ _ _ _ Hg) as [Ho Hc].
    split; [right; left; by eexists|]. intros k _. by rewrite Ho.
  - destruct (generate_blog_effects _ _ _ _ Hg) as [Ho Hc].
    apply save_to_s3_inv_ok in Hs as (encoded & _ & _ & _ & ->).
    cbn [objects calls]. split.
    + right; right. exists (topic_of d), encoded. by rewrite Hc, <- app_assoc.
    + intros k Hk. rewrite lookup_insert_ne by done. by rewrite Ho.
  - destruct (generate_blog_effects _ _ _ _ Hg) as [Ho Hc].
    destruct (save_to_s3_raises _ _ _ _ Hs) as [Ho2 Hc2].
    split; [|intros k _; by rewrite Ho2, Ho].
    rewrite Hc2, Hc, <- app_assoc.
    destruct (encode_utf8 blog) as [encoded|e1].
    + right; right. by exists (topic_of d), encoded.
    + right; left. by exists (topic_of d).
Qed.

(** X18: a 200 response is returned only after the artifact was written:
    its body has at least 100 characters, no whitespace at either end and
    no three consecutive newlines, the write was accepted, and the bucket
    holds the UTF-8 encoding of the body under the current key. *)
Theorem success_only_after_store
    (event : list (str * pyval)) (st st' : cloud) (resp : response) :
  lambda_handler event st = (Ok resp, st') ->
  statusCode resp = 200%Z ->
  (100 <= length (body resp))%nat /\
  strip (body resp) = body resp /\
  contains [NL; NL; NL] (body resp) = false /\
  exists encoded : bytes,
    encode_utf8 (body resp) = Ok encoded /\
    put_object S3_BUCKET s3_key_now encoded = Ok tt /\
    objects st' !! (S3_BUCKET, s3_key_now) = Some encoded.
Proof.
  intros Hh Hcode.
  destruct (lambda_handler_paths event st) as (resp0 & st0 & Hh0 & Hp).
  rewrite Hh in Hh0. injection Hh0 as <- <-.
  destruct Hp as [(-> & _)|[(d & _ & _ & -> & _)|[(d & blog & _ & _ & _ & _ & ->)
    |[(d & blog & st1 & path & _ & _ & Hg & Hlen & Hs & ->)
     |(d & blog & st1 & e & _ & _ & _ & _ & _ & ->)]]]]; try done.
  cbn [body success_response].
  destruct (generate_blog_sanitized _ _ _ _ Hg) as [raw [= ->]].
  split; [done|]. split; [|split].
  - apply strip_id; [apply clean_head_ok|apply clean_last_ok].
  - apply no_triple_no_long_run, clean_no_long_run.
  - apply save_to_s3_inv_ok in Hs as (encoded & He & Hp & _ & ->).
    exists encoded. repeat split; try done. apply lookup_insert_eq.
Qed.

(** X19: the handler answers 400 exactly when the body decodes to an
    object whose topic is missing or falsy; the response is then the
    missing-topic one and no call has been made. *)
Theorem missing_topic_iff
    (event : list (str * pyval)) (st st' : cloud) (resp : response) :
  lambda_handler event st = (Ok resp, st') ->
  (statusCode resp = 400%Z <->
   exists d, json_loads_value (event_body event) = Ok (PDict d) /\
             truthy (topic_of d) = false) /\
  (statusCode resp = 400%Z -> resp = missing_topic_response /\ st' = st).
Proof.
  intros Hh.
  destruct (lambda_handler_paths event st) as (resp0 & st0 & Hh0 & Hp).
  rewrite Hh in Hh0. injection Hh0 as <- <-.
  destruct Hp as [(-> & _ & Hn)|[(d & Hb & Ht & -> & ->)
    |[(d & blog & Hb & Ht & _ & _ & ->)
    |[(d & blog & st1 & path & Hb & Ht & _ & _ & _ & ->)
     |(d & blog & st1 & e & Hb & Ht & _ & _ & _ & ->)]]]].
  - split; [|done]. split; [done|]. intros (d & Hb & _). by destruct (Hn d).
  - split; [|done]. split; [|done]. intros _. by exists d.
  - split; [|done]. split; [done|]. intros (d' & Hb' & Ht').
    rewrite Hb in Hb'. injection Hb' as <-. congruence.
  - split; [|done]. split; [done|]. intros (d' & Hb' & Ht').
    rewrite Hb in Hb'. injection Hb' as <-. congruence.
  - split; [|done]. split; [done|]. intros (d' & Hb' & Ht').
    rewrite Hb in Hb'. injection Hb' as <-. congruence.
Qed.

(** X20: topic validation tests truthiness only, not the type: a truthy
    topic that is no string (a number, a list) is accepted, and the prompt
    of the generation call is built from its [str()]. *)
Theorem truthy_topic_reaches_generation
    (event d : list (str * pyval)) (v : pyval) (st : cloud) :
  json_loads_value (event_body event) = Ok (PDict d) ->
  dict_lookup (lit "topic") d = Some v -> truthy v = true ->
  (forall s, v <> PStr s) ->
  exists (resp : response) (st' : cloud) (rest : list call),
    lambda_handler event st = (Ok resp, st') /\
    statusCode resp <> 400%Z /\
    calls st' = calls st ++
      InvokeModel MODEL_ID (lit "application/json") (lit "application/json")
        (json_dumps (generation_payload (build_prompt (py_repr v)))) :: rest.
Proof.
  intros Hb Hv Ht Hs.
  assert (Hcall : generation_call v
                  = InvokeModel MODEL_ID (lit "application/json") (lit "application/json")
                      (json_dumps (generation_payload (build_prompt (py_repr v))))).
  { unfold generation_call. destruct v; try done. by destruct (Hs s). }
  rewrite <- Hcall.
  rewrite (lambda_handler_decoded _ _ _ Hb), Hv. cbn zeta. rewrite Ht.
  destruct (generate_blog_outcome v st) as [blog Hg]. rewrite Hg.
  destruct (negb (truthy (PStr blog)) || (length blog <? 100)%nat).
  - eexists _, _, []. by repeat split.
  - destruct (save_to_s3 blog _) as [[p|e] st2] eqn:Hsave;
      destruct (save_to_s3_calls _ _ _ _ Hsave) as [rest Hr];
      eexists _, _, rest; (repeat split; [done|]);
      rewrite Hr; cbn [calls]; by rewrite <- app_assoc.
Qed.

(** X21: an event whose body is not a text (for instance null), or whose
    body decodes to something other than an object (a list, a number, a
    string), is answered with the 500 internal error, and no call is
    made. *)
Theorem body_not_an_object (event : list (str * pyval)) (st : cloud) :
  (forall s, event_body event <> PStr s) \/
  (exists v, json_loads_value (event_body event) = Ok v /\
             forall d, v <> PDict d) ->
  lambda_handler event st = (Ok internal_error_response, st).
Proof.
  intros [Hs|(v & Hb & Hv)].
  - unfold lambda_handler, try_except, bind, lift, ret.
    destruct (event_body event) as [| | | |s| |] eqn:E; try done.
    by destruct (Hs s).
  - by apply (non_object_body_internal_error _ _ _ Hb Hv).
Qed.

(** X22: an event without a [body] key is handled as the request [{}]:
    where [json.loads] decodes that to the empty object, the answer is the
    400 missing-topic response. *)
Theorem event_without_body (event : list (str * pyval)) (st : cloud) :
  dict_lookup (lit "body") event = None ->
  json_loads (lit "{}") = Ok (PDict []) ->
  lambda_handler event st = (Ok missing_topic_response, st).
Proof.
  intros He Hj.
  assert (Hb : json_loads_value (event_body event) = Ok (PDict [])).
  { unfold event_body. by rewrite He. }
  by rewrite (lambda_handler_decoded _ _ _ Hb).
Qed.
End HandlerMore.

(** The successful run of the example request. *)
Lemma demo_success_run :
  @lambda_handler Demo.runtime Demo.all_up (Demo.request (lit "cats")) Demo.empty_cloud
  = (Ok (success_response Demo.long_text),
     {| objects := <[(S3_BUCKET, @s3_key_now Demo.all_up) := Demo.long_text]> ∅;
        calls := [@generation_call Demo.runtime Demo.cats;
                  @store_call Demo.all_up Demo.long_text] |}).
Proof.
  assert (Hb : @json_loads_value Demo.runtime (event_body (Demo.request (lit "cats")))
               = Ok (PDict [(lit "topic", Demo.cats)])) by (vm_compute; reflexivity).
  assert (Hg : @generate_blog Demo.runtime Demo.all_up Demo.cats Demo.empty_cloud
               = (Ok Demo.long_text,
                  {| objects := ∅; calls := [@generation_call Demo.runtime Demo.cats] |}))
    by (vm_compute; reflexivity).
  assert (Hlen : (100 <= length Demo.long_text)%nat)
    by (apply Nat.leb_le; vm_compute; reflexivity).
  rewrite (lambda_handler_decoded _ _ _ Hb).
  change (dict_lookup (lit "topic") [(lit "topic", Demo.cats)]) with (Some Demo.cats).
  cbn zeta. change (truthy Demo.cats) with true. cbn iota.
  rewrite Hg, (long_enough _ Hlen).
  erewrite (@save_to_s3_ok Demo.all_up Demo.long_text Demo.long_text);
    [reflexivity|vm_compute; reflexivity|vm_compute; reflexivity].
Qed.

Lemma success_only_after_store_witness :
  (100 <= length (body (success_response Demo.long_text)))%nat /\
  strip (body (success_response Demo.long_text)) = body (success_response Demo.long_text) /\
  contains [NL; NL; NL] (body (success_response Demo.long_text)) = false /\
  exists encoded : bytes,
    encode_utf8 (body (success_response Demo.long_text)) = Ok encoded /\
    @put_object Demo.all_up S3_BUCKET (@s3_key_now Demo.all_up) encoded = Ok tt /\
    (<[(S3_BUCKET, @s3_key_now Demo.all_up) := Demo.long_text]> ∅
       : gmap (list N * list N) (list N))
      !! (S3_BUCKET, @s3_key_now Demo.all_up) = Some encoded.
Proof.
  apply (@success_only_after_store Demo.runtime Demo.all_up
           (Demo.request (lit "cats")) Demo.empty_cloud _ _ demo_success_run).
  reflexivity.
Defined.

Lemma missing_topic_iff_witness :
  (statusCode (@missing_topic_response Demo.runtime) = 400%Z <->
   exists d, @json_loads_value Demo.runtime (event_body []) = Ok (PDict d) /\
             truthy (topic_of d) = false) /\
  (statusCode (@missing_topic_response Demo.runtime) = 400%Z ->
   @missing_topic_response Demo.runtime = @missing_topic_response Demo.runtime /\
   Demo.empty_cloud = Demo.empty_cloud).
Proof.
  apply (@missing_topic_iff Demo.runtime Demo.all_up [] Demo.empty_cloud).
  vm_compute. reflexivity.
Defined.

Lemma truthy_topic_reaches_generation_witness :
  exists (resp : response) (st' : cloud) (rest : list call),
    @lambda_handler (Fixture.runtime Fixture.documents) Demo.all_up
      [(lit "body", PStr Fixture.topic_five)] Demo.empty_cloud = (Ok resp, st') /\
    statusCode resp <> 400%Z /\
    calls st' = calls Demo.empty_cloud ++
      InvokeModel MODEL_ID (lit "application/json") (lit "application/json")
        (@json_dumps (Fixture.runtime Fixture.documents)
           (generation_payload (build_prompt (lit "5")))) :: rest.
Proof.
  apply (@truthy_topic_reaches_generation (Fixture.runtime Fixture.documents)
           Demo.all_up [(lit "body", PStr Fixture.topic_five)]
           [(lit "topic", Fixture.five)] Fixture.five Demo.empty_cloud).
  - vm_compute. reflexivity.
  - vm_compute. reflexivity.
  - reflexivity.
  - discriminate.
Defined.

Lemma body_not_an_object_witness :
  @lambda_handler Demo.runtime Demo.all_up [(lit "body", PNone)] Demo.empty_cloud
  = (Ok (@internal_error_response Demo.runtime), Demo.empty_cloud)
  /\
  @lambda_handler (Fixture.runtime Fixture.documents) Demo.all_up
    [(lit "body", PStr (lit "[]"))] Demo.empty_cloud
  = (Ok (@internal_error_response (Fixture.runtime Fixture.documents)), Demo.empty_cloud).
Proof.
  split.
  - apply (@body_not_an_object Demo.runtime Demo.all_up). left. discriminate.
  - apply (@body_not_an_object (Fixture.runtime Fixture.documents) Demo.all_up).
    right. exists (PList []). split; [vm_compute; reflexivity|discriminate].
Defined.

Lemma event_without_body_witness :
  @lambda_handler Demo.runtime Demo.all_up [(lit "headers", PDict [])] Demo.empty_cloud
  = (Ok (@missing_topic_response Demo.runtime), Demo.empty_cloud).
Proof.
  apply (@event_without_body Demo.runtime Demo.all_up); vm_compute; reflexivity.
Defined.

(** ** The encoding of the artifact *)

Lemma lor_byte (a b : N) : a < 256 -> b < 256 -> N.lor a b < 256.
Proof.
  intros Ha Hb.
  destruct (N.eq_0_gt_0_cases (N.lor a b)) as [->|Hpos]; [lia|].
  change 256 with (2 ^ 8). apply N.log2_lt_pow2; [done|].
  rewrite N.log2_lor.
  assert (Hl : forall x, x < 256 -> N.log2 x < 8).
  { intros x Hx. destruct (N.eq_0_gt_0_cases x) as [->|Hx0]; [done|].
    apply N.log2_lt_pow2; done. }
  specialize (Hl a Ha) as Hla. specialize (Hl b Hb) as Hlb. lia.
Qed.

Lemma shiftr_small (c k bound : N) :
  c < 2 ^ k * bound -> N.shiftr c k < bound.
Proof.
  intros Hc. rewrite N.shiftr_div_pow2.
  apply N.Div0.div_lt_upper_bound. done.
Qed.

Lemma continuation_byte (x : N) : N.lor 128 (N.land x 63) < 256.
Proof.
  apply lor_byte; [done|]. pose proof (N.land_le_r x 63). lia.
Qed.

Lemma utf8_char_bytes (c : char) (bs : bytes) :
  utf8_char c = Ok bs ->
  Forall (fun b => b < 256) bs /\ (1 <= length bs <= 4)%nat.
Proof.
  unfold utf8_char.
  destruct (c <? 128) eqn:E1.
  { apply N.ltb_lt in E1. intros [= <-]. split; [|simpl; lia].
    repeat constructor. lia. }
  destruct (c <? 2048) eqn:E2.
  { apply N.ltb_lt in E2. intros [= <-]. split; [|simpl; lia].
    repeat constructor; [|apply continuation_byte].
    apply lor_byte; [done|]. pose proof (shiftr_small c 6 32 E2). lia. }
  destruct (c <? 65536) eqn:E3.
  { apply N.ltb_lt in E3.
    destruct ((55296 <=? c) && (c <=? 57343)); [done|].
    intros [= <-]. split; [|simpl; lia].
    repeat constructor; try apply continuation_byte.
    apply lor_byte; [done|]. pose proof (shiftr_small c 12 16 E3). lia. }
  destruct (c <? 1114112) eqn:E4; [|done].
  apply N.ltb_lt in E4. intros [= <-]. split; [|simpl; lia].
  repeat constructor; try apply continuation_byte.
  apply lor_byte; [done|].
  assert (c < 2 ^ 18 * 5) as Hc by (change (2 ^ 18 * 5) with 1310720; lia).
  pose proof (shiftr_small c 18 5 Hc). lia.
Qed.

Lemma utf8_char_outcome (c : char) :
  (encodable c = true /\ exists bs, utf8_char c = Ok bs) \/
  (encodable c = false /\ utf8_char c = Raise UnicodeEncodeError).
Proof.
  unfold utf8_char, encodable.
  destruct (c <? 128) eqn:E1; destruct (c <? 2048) eqn:E2;
    destruct (c <? 65536) eqn:E3; destruct (c <? 1114112) eqn:E4;
    destruct (55296 <=? c) eqn:E5; destruct (c <=? 57343) eqn:E6;
    destruct (c <? 55296) eqn:E7; destruct (57343 <? c) eqn:E8;
    cbn [andb orb];
    try (left; split; [done|by eexists]);
    try (right; split; done);
    exfalso;
    repeat match goal with
           | H : (_ <? _) = true |- _ => apply N.ltb_lt in H
           | H : (_ <? _) = false |- _ => apply N.ltb_ge in H
           | H : (_ <=? _) = true |- _ => apply N.leb_le in H
           | H : (_ <=? _) = false |- _ => apply N.leb_gt in H
           end; lia.
Qed.

(** X23: [encode_utf8] succeeds exactly on the texts without a surrogate
    (or out-of-range) code point and otherwise raises [UnicodeEncodeError];
    what it returns are bytes, between one and four for each character. *)
Theorem encode_utf8_outcome (s : str) :
  (forallb encodable s = true /\
   exists bs : bytes,
     encode_utf8 s = Ok bs /\ Forall (fun b => b < 256) bs /\
     (length s <= length bs <= 4 * length s)%nat) \/
  (forallb encodable s = false /\ encode_utf8 s = Raise UnicodeEncodeError).
Proof.
  induction s as [|c s IH].
  - left. split; [done|]. exists []. repeat split; simpl; (done || lia).
  - cbn [forallb encode_utf8].
    destruct (utf8_char_outcome c) as [[-> [b Hb]]|[-> ->]]; [|by right].
    rewrite Hb. destruct (utf8_char_bytes c b Hb) as [Fb Lb].
    destruct IH as [(-> & bs & -> & Fbs & Lbs)|[-> ->]]; [|by right].
    left. split; [done|]. exists (b ++ bs). split; [done|]. split.
    + by apply Forall_app.
    + rewrite length_app. simpl. lia.
Qed.

(** X24: an ASCII text is its own encoding: the artifact of an ASCII blog
    holds the code points of the text. *)
Theorem encode_utf8_ascii (s : str) :
  forallb (fun c => c <? 128) s = true -> encode_utf8 s = Ok s.
Proof.
  induction s as [|c s IH]; [done|]. cbn [forallb encode_utf8]. intros Hs.
  apply andb_prop in Hs as [Hc Hs]. unfold utf8_char. by rewrite Hc, (IH Hs).
Qed.

Lemma encode_utf8_ascii_witness : encode_utf8 Demo.long_text = Ok Demo.long_text.
Proof. apply encode_utf8_ascii. vm_compute. reflexivity. Defined.

(** ** The JSON texts the module writes *)

Lemma hex_digit_printable (x : N) : printable (hex_digit (N.land x 15)) = true.
Proof.
  pose proof (N.land_le_r x 15) as Hle. unfold hex_digit, printable.
  destruct (N.land x 15 <? 10) eqn:E;
    [apply N.ltb_lt in E|apply N.ltb_ge in E];
    apply andb_true_intro; split; apply N.leb_le; lia.
Qed.

Lemma hex4_printable (n : N) : forallb printable (hex4 n) = true.
Proof. unfold hex4. cbn [forallb]. by rewrite !hex_digit_printable. Qed.

Lemma json_escape_char_printable (c : char) :
  forallb printable (json_escape_char c) = true.
Proof.
  unfold json_escape_char.
  repeat match goal with
         | |- context [if ?b then _ else _] =>
             let E := fresh "E" in destruct b eqn:E; [try done|]
         end.
  - cbn [forallb]. unfold printable. by rewrite E6.
  - change (BACKSLASH :: lit "u" ++ hex4 c) with ([BACKSLASH; 117] ++ hex4 c).
    by rewrite forallb_app, hex4_printable.
  - cbv zeta.
    match goal with
    | |- forallb _ (BACKSLASH :: lit "u" ++ hex4 ?a ++ BACKSLASH :: lit "u" ++ hex4 ?b) = _ =>
        change (BACKSLASH :: lit "u" ++ hex4 a ++ BACKSLASH :: lit "u" ++ hex4 b)
          with ([BACKSLASH; 117] ++ hex4 a ++ [BACKSLASH; 117] ++ hex4 b)
    end.
    by rewrite !forallb_app, !hex4_printable.
Qed.

Lemma json_string_printable (s : str) : forallb printable (json_string s) = true.
Proof.
  unfold json_string. rewrite !forallb_app. cbn [forallb].
  assert (forallb printable (concat (List.map json_escape_char s)) = true) as ->.
  { induction s as [|c s IH]; [done|]. simpl.
    by rewrite forallb_app, json_escape_char_printable, IH. }
  done.
Qed.

Lemma json_string_plain (s : str) :
  forallb plain s = true -> json_string s = [DQUOTE] ++ s ++ [DQUOTE].
Proof.
  intros Hs. unfold json_string. do 2 f_equal.
  induction s as [|c s IH]; [done|]. cbn [forallb] in Hs.
  apply andb_prop in Hs as [Hc Hs]. simpl. rewrite (IH Hs). f_equal.
  unfold plain in Hc.
  apply andb_prop in Hc as [Hc Hb]. apply andb_prop in Hc as [Hc Hq].
  apply negb_true_iff in Hb, Hq.
  assert (Hne : forall k, k < 32 -> (c =? k) = false).
  { intros k Hk. apply andb_prop in Hc as [H32 _]. apply N.leb_le in H32.
    apply N.eqb_neq. lia. }
  unfold json_escape_char. rewrite Hq, Hb.
  rewrite (Hne 8), (Hne 12), (Hne NL), (Hne 13), (Hne 9) by done.
  by rewrite Hc.
Qed.

Section JsonFacts.
Context `{PyRuntime}.

(** X25: whatever the topic, the request body sent to the model is
    printable ASCII, provided the two sampling parameters print so: every
    other character of the prompt is escaped. *)
Theorem generation_request_ascii (prompt : str) :
  forallb printable (float_repr 0.7%float) = true ->
  forallb printable (float_repr 0.9%float) = true ->
  forallb printable (json_dumps (generation_payload prompt)) = true.
Proof.
  intros H7 H9. unfold generation_payload.
  cbn [json_dumps]. unfold json_float.
  change (PrimFloat.is_nan 0.7%float) with false.
  change (PrimFloat.is_nan 0.9%float) with false.
  change (PrimFloat.eqb 0.7%float PrimFloat.infinity) with false.
  change (PrimFloat.eqb 0.9%float PrimFloat.infinity) with false.
  change (PrimFloat.eqb 0.7%float PrimFloat.neg_infinity) with false.
  change (PrimFloat.eqb 0.9%float PrimFloat.neg_infinity) with false.
  cbv iota. rewrite !forallb_app, !json_string_printable, H7, H9. done.
Qed.

(** X26: for a message of printable ASCII characters without double quote
    and backslash, the error body is the text [{"error": "<message>"}] with
    the message unchanged. *)
Theorem error_body_plain (message : str) :
  forallb plain message = true -> error_body message = error_text message.
Proof.
  intros Hm. unfold error_body, error_text. cbn [json_dumps].
  rewrite (json_string_plain message Hm).
  rewrite (json_string_plain (lit "error")) by done.
  by rewrite <- !app_assoc.
Qed.
End JsonFacts.

Lemma generation_request_ascii_witness :
  forallb printable
    (@json_dumps Demo.runtime (generation_payload (build_prompt [233; 8364; 128512])))
  = true.
Proof. apply (@generation_request_ascii Demo.runtime); reflexivity. Defined.

Lemma error_body_plain_witness :
  @error_body Demo.runtime (lit "Store is down") = error_text (lit "Store is down").
Proof. apply (@error_body_plain Demo.runtime). reflexivity. Defined.
